(** * particle-cli: the [flash] command

    A shallow embedding of [FlashCommand] (the USB / serial / cloud flash
    dispatcher and the DFU destination resolver) together with the
    properties its specification states about it.

    The command is a chain of promise callbacks that share a handful of
    closure variables and talk to collaborators that live outside the file
    ([dfu], [fs], [temp], the module parser, the device directory).  The
    embedding keeps that shape: every callback is a computation in a small
    state-and-exception monad, the collaborators are the fields of an
    environment record, and every call that leaves the file is logged in a
    trace so that "is never consulted" and "is invoked only with" can be
    stated. *)

From Stdlib Require Import ZArith Ascii String List Bool Lia.
From stdpp Require Import base option list gmap strings pretty.
Import ListNotations.

Local Open Scope string_scope.
Local Open Scope list_scope.
Local Open Scope Z_scope.

(** ** JavaScript values and operators used by the command *)

Module JS.

(** The primitive values that reach string concatenation in the command. *)
Inductive value :=
| Undefined
| Num (n : Z)
| Str (s : string).

(** [ToString] on the values above.  Integers print in decimal (every
    number the command prints is an unsigned header field). *)
Definition ToString (v : value) : string :=
  match v with
  | Undefined => "undefined"
  | Num n => pretty n
  | Str s => s
  end.

(** [s + v] with a string on the left. *)
Definition concat (s : string) (v : value) : string := s +:+ ToString v.

(** Truthiness of a variable that holds [undefined] or a string. *)
Definition truthy (o : option string) : bool :=
  match o with
  | Some s => negb (String.eqb s "")
  | None => false
  end.

(** [o === s] for such a variable and a string literal. *)
Definition strict_eq (o : option string) (s : string) : bool :=
  match o with
  | Some s' => String.eqb s' s
  | None => false
  end.

(** [ToInt32] and the bitwise [&] of two numbers. *)
Definition ToInt32 (n : Z) : Z := (n + 2 ^ 31) mod 2 ^ 32 - 2 ^ 31.

Definition bitand (a b : Z) : Z := Z.land (ToInt32 a) (ToInt32 b).

(** Truthiness of a number. *)
Definition truthy_num (n : Z) : bool := negb (n =? 0).

(** What a promise can be rejected with, or a [throw] can throw. *)
#[warnings="-register-all"]
Inductive error :=
| Error (message : string)
| TypeError (message : string)
| VError (cause : option error) (message : string)
| Reason (v : value).

End JS.

(** ** Data handed over by the collaborators *)

(** [info] as produced by [HalModuleParser.parseFile]. *)
Record PrefixInfo := {
  platformID : Z;
  moduleFunction : Z;
  moduleIndex : Z;
  moduleFlags : Z;
  moduleStartAddy : JS.value
}.

Record SuffixInfo := { suffixSize : Z }.

Record Crc := { ok : bool }.

Record Info := {
  prefixInfo : PrefixInfo;
  suffixInfo : SuffixInfo;
  crc : Crc
}.

(** The constants of [ModuleInfo] the command reads. *)
Record ModuleInfoConstants := {
  MONO_FIRMWARE : Z;
  SYSTEM_PART : Z;
  USER_PART : Z;
  RADIO_STACK : Z;
  DROP_MODULE_INFO : Z;
  HEADER_SIZE : nat
}.

(** One segment of [deviceSpecs[dfuId]] and the fields read from the
    platform entry itself. *)
Record SegmentSpecs := { address : option string }.

Record DeviceSpecs := {
  productId : Z;
  systemFirmwareOne : option SegmentSpecs
}.

(** The object returned by [dfu._validateSegmentSpecs]. *)
Record ValidatedSegment := {
  error : option string;
  specs : option SegmentSpecs
}.

(** The object returned by [getDevice]. *)
Record DeviceInfo := { deviceInfo_id : option string }.

(** The handle returned by [dfu.findCompatibleDFU]. *)
Definition TargetDevice := string.

(** ** The world: file system and trace of outgoing calls *)

Inductive fsnode :=
| File (bytes : list Byte.byte)
| Directory.

Inductive event :=
| Call_isDfuUtilInstalled
| Call_findCompatibleDFU (deviceId : option string)
| Call_statSync (path : option string)
| Call_checkKnownApp (name : option string)
| Call_parseFile (path : string)
| Console_log (line : string)
| Call_createReadStream (path : string) (start : nat)
| Call_createWriteStream (path : string)
| Call_validateSegmentSpecs (segmentName : option string)
| Call_writeDfu (alt : Z) (firmware : option string) (address : option string)
                (leave : bool) (device : TargetDevice)
| Call_getDevice (id : string)
| Call_flashYModem (binary : option string) (port : option string) (yes : bool)
| Call_flashCloud (device : option string) (files : list string)
                  (target : option string) (yes : bool).

Record World := {
  fs : gmap string fsnode;
  trace : list event
}.

(** The collaborators.  A collaborator that returns a promise answers with
    [inl] for a rejection; [option JS.error] is used where the resolved value
    is not looked at. *)
Record Env := {
  ModuleInfo : ModuleInfoConstants;
  dfu_isDfuUtilInstalled : option JS.error;
  dfu_findCompatibleDFU : option string -> JS.error + TargetDevice;
  dfu_checkKnownApp : option string -> option string;
  parser_parseFile : string -> JS.error + Info;
  deviceSpecs_dfuId : option DeviceSpecs;
  dfu_validateSegmentSpecs : option string -> ValidatedSegment;
  dfu_writeDfu : Z -> option string -> option string -> bool -> TargetDevice ->
                 option JS.error;
  temp_path : gmap string fsnode -> string;
  isDeviceId : string -> bool;
  getDevice : string -> JS.error + option DeviceInfo;
  ensureError : JS.error -> JS.error;
  serial_flashDevice : option string -> option string -> bool -> option JS.error;
  cloud_flashDevice : option string -> list string -> option string -> bool ->
                      option JS.error
}.

(** ** Promises as a state-and-exception monad *)

Inductive outcome (A : Type) :=
| Resolved (a : A)
| Rejected (e : JS.error).

Arguments Resolved {A} a.
Arguments Rejected {A} e.

Definition M (A : Type) : Type := World -> outcome A * World.

Definition ret {A} (a : A) : M A := fun w => (Resolved a, w).

Definition throw {A} (e : JS.error) : M A := fun w => (Rejected e, w).

Definition bind {A B} (m : M A) (k : A -> M B) : M B :=
  fun w =>
    match m w with
    | (Resolved a, w') => k a w'
    | (Rejected e, w') => (Rejected e, w')
    end.

(** [p.catch(handler)], and [try { } catch (err) { }]. *)
Definition catch {A} (m : M A) (handler : JS.error -> M A) : M A :=
  fun w =>
    match m w with
    | (Resolved a, w') => (Resolved a, w')
    | (Rejected e, w') => handler e w'
    end.

(** The world after some more calls were logged. *)
Definition log (events : list event) (w : World) : World :=
  {| fs := fs w; trace := trace w ++ events |}.

Definition emit (e : event) : M unit := fun w => (Resolved tt, log [e] w).

Definition read_fs : M (gmap string fsnode) := fun w => (Resolved (fs w), w).

Definition write_file (path : string) (bytes : list Byte.byte) : M unit :=
  fun w => (Resolved tt, {| fs := <[path := File bytes]> (fs w); trace := trace w |}).

(** Settle with the answer of a collaborator. *)
Definition settle {A} (r : JS.error + A) : M A :=
  match r with
  | inl e => throw e
  | inr a => ret a
  end.

Definition settle_unit (r : option JS.error) : M unit :=
  match r with
  | Some e => throw e
  | None => ret tt
  end.

#[global] Instance M_ret : MRet M := @ret.
#[global] Instance M_bind : MBind M := fun A B k m => bind m k.

(** ** The command *)

(** [systemModuleIndexToString[moduleIndex]]. *)
Definition systemModuleIndexToString (moduleIndex : Z) : option string :=
  if moduleIndex =? 1 then Some "systemFirmwareOne"
  else if moduleIndex =? 2 then Some "systemFirmwareTwo"
  else if moduleIndex =? 3 then Some "systemFirmwareThree"
  else None.

(** The value of the unknown-suffix test, [suffixSize === 65535]. *)
Definition suffix_unknown (info : Info) : bool :=
  suffixSize (suffixInfo info) =? 65535.

Section FlashCommand.

Variable env : Env.

Let MI := ModuleInfo env.

(** [moduleFlags & ModuleInfo.Flags.DROP_MODULE_INFO], as a condition. *)
Definition dropModuleInfoFlag (info : Info) : bool :=
  JS.truthy_num (JS.bitand (moduleFlags (prefixInfo info)) (DROP_MODULE_INFO MI)).

(** [_dropModuleInfo(binary)]: pipe the file, from offset [HEADER_SIZE] on,
    into a new temporary file and resolve with its path.  The command only
    calls it on a path it has checked to be a file; on any other path the
    read stream fails, which is rendered here as a rejection. *)
Definition _dropModuleInfo (binary : string) : M string :=
  emit (Call_createReadStream binary (HEADER_SIZE MI));;
  files ← read_fs;
  let path := temp_path env files in
  emit (Call_createWriteStream path);;
  match files !! binary with
  | Some (File bytes) =>
      write_file path (drop (HEADER_SIZE MI) bytes);;
      ret path
  | Some Directory => throw (JS.Error "EISDIR: illegal operation on a directory, read")
  | None => throw (JS.Error "ENOENT: no such file or directory")
  end.

(** Second callback of [flashDfu] (the one after device discovery):
    locate the binary.  Resolves with the new values of [binary] and
    [flashingKnownApp].  [statSync] throws on [undefined] and on a path
    with no entry; either way the catch block tries the known apps. *)
Definition flashDfu_locate (binary : option string) : M (string * bool) :=
  emit (Call_statSync binary);;
  files ← read_fs;
  match binary ≫= (fun path => (fun stats => (path, stats)) <$> files !! path) with
  | None =>
      (* file does not exist *)
      emit (Call_checkKnownApp binary);;
      match dfu_checkKnownApp env binary with
      | None => throw (JS.Error "file does not exist and no known app found.")
      | Some app => mret (app, true)
      end
  | Some (_, Directory) => throw (JS.Error "You cannot flash a directory over USB")
  | Some (path, File _) => mret (path, false)
  end.

(** [destSegment = factory ? 'factoryReset' : 'userFirmware']. *)
Definition default_segment (factory : bool) : string :=
  if factory then "factoryReset" else "userFirmware".

(** The [switch] on [info.prefixInfo.moduleFunction]: the new values of
    [destSegment] and [destAddress], or the error of the default case. *)
Definition flashDfu_switch (info : Info) (specs : DeviceSpecs) (force : bool)
    (destSegment : option string) : JS.error + (option string * option string) :=
  let p := prefixInfo info in
  if moduleFunction p =? MONO_FIRMWARE MI then
    (* only override if modular capable *)
    inr (match systemFirmwareOne specs with
         | Some _ => Some "systemFirmwareOne"
         | None => destSegment
         end, None)
  else if moduleFunction p =? SYSTEM_PART MI then
    inr (systemModuleIndexToString (moduleIndex p),
         Some (JS.concat "0x0" (moduleStartAddy p)))
  else if moduleFunction p =? USER_PART MI then
    (* use existing destSegment for userFirmware/factoryReset *)
    inr (destSegment, None)
  else if moduleFunction p =? RADIO_STACK MI then
    inr (Some "radioStack", Some (JS.concat "0x0" (moduleStartAddy p)))
  else if negb force then
    inl (JS.Error ("unknown module function " +:+ pretty (moduleFunction p)
                   +:+ ", use --force to override"))
  else inr (destSegment, None).

(** The callback that receives the parsed [info].  Resolves with the
    value handed to the next callback ([finalBinary]) and the values
    of the closure variables [destSegment] and [destAddress]. *)
Definition flashDfu_verify (binary : string) (force : bool)
    (destSegment : option string) (info : Info)
    : M (option string * option string * option string) :=
  if suffix_unknown info then
    emit (Console_log "warn: unable to verify binary info");;
    mret (None, destSegment, None)
  else if negb (ok (crc info)) && negb force then
    throw (JS.Error "CRC is invalid, use --force to override")
  else
    match deviceSpecs_dfuId env with
    | None => throw (JS.TypeError "Cannot read property 'productId' of undefined")
    | Some specs =>
        if negb (platformID (prefixInfo info) =? productId specs) && negb force then
          throw (JS.Error ("Incorrect platform id (expected " +:+ pretty (productId specs)
                           +:+ ", parsed " +:+ pretty (platformID (prefixInfo info))
                           +:+ "), use --force to override"))
        else
          '(destSegment, destAddress) ← settle (flashDfu_switch info specs force destSegment);
          if dropModuleInfoFlag info then
            finalBinary ← _dropModuleInfo binary;
            mret (Some finalBinary, destSegment, destAddress)
          else mret (Some binary, destSegment, destAddress)
    end.

(** Third callback: choose the segment, and parse and verify the binary
    unless a known app is flashed. *)
Definition flashDfu_inspect (binary : string) (flashingKnownApp factory force : bool)
    : M (option string * option string * option string) :=
  let destSegment := Some (default_segment factory) in
  if flashingKnownApp then mret (Some binary, destSegment, None)
  else
    emit (Call_parseFile binary);;
    info ← catch (settle (parser_parseFile env binary))
                 (fun err => throw (JS.VError (Some (ensureError env err))
                                              ("Could not parse " +:+ binary)));
    flashDfu_verify binary force destSegment info.

(** Fourth callback, up to the call of [dfu.writeDfu]: the address to
    write to. *)
Definition flashDfu_destination (destSegment destAddress : option string)
    : M (option string) :=
  destAddress ←
    (if negb (JS.truthy destAddress) && JS.truthy destSegment then
       emit (Call_validateSegmentSpecs destSegment);;
       let segment := dfu_validateSegmentSpecs env destSegment in
       if JS.truthy (error segment) then
         throw (JS.Error ("dfu.write: " +:+ default "" (error segment)))
       else
         match specs segment with
         | None => throw (JS.TypeError "Cannot read property 'address' of undefined")
         | Some sp => mret (address sp)
         end
     else mret destAddress);
  if negb (JS.truthy destAddress) then throw (JS.Error "Unknown destination")
  else mret destAddress.

(** [leave = requestLeave !== undefined ? requestLeave : (destSegment === 'userFirmware')]. *)
Definition leave_flag (requestLeave : option bool) (destSegment : option string) : bool :=
  match requestLeave with
  | Some b => b
  | None => JS.strict_eq destSegment "userFirmware"
  end.

(** The arguments [dfu.writeDfu] is called with, next to [alt = 0], and
    the segment they were resolved from. *)
Record FlashPlan := {
  plan_destSegment : option string;
  plan_destAddress : option string;
  plan_finalBinary : option string;
  plan_leave : bool;
  plan_targetDevice : TargetDevice
}.

(** [flashDfu] up to the point where [dfu.writeDfu] is called. *)
Definition flashDfu_resolve (device binary : option string) (factory force : bool)
    (requestLeave : option bool) : M FlashPlan :=
  emit Call_isDfuUtilInstalled;;
  settle_unit (dfu_isDfuUtilInstalled env);;
  emit (Call_findCompatibleDFU device);;
  targetDevice ← settle (dfu_findCompatibleDFU env device);
  '(binary, flashingKnownApp) ← flashDfu_locate binary;
  '(finalBinary, destSegment, destAddress) ←
    flashDfu_inspect binary flashingKnownApp factory force;
  destAddress ← flashDfu_destination destSegment destAddress;
  mret {| plan_destSegment := destSegment;
          plan_destAddress := destAddress;
          plan_finalBinary := finalBinary;
          plan_leave := leave_flag requestLeave destSegment;
          plan_targetDevice := targetDevice |}.

(** [dfu.writeDfu(alt, finalBinary, destAddress, leave, targetDevice)]. *)
Definition write_plan (plan : FlashPlan) : M unit :=
  let alt := 0 in
  emit (Call_writeDfu alt (plan_finalBinary plan) (plan_destAddress plan)
                      (plan_leave plan) (plan_targetDevice plan));;
  settle_unit (dfu_writeDfu env alt (plan_finalBinary plan) (plan_destAddress plan)
                            (plan_leave plan) (plan_targetDevice plan)).

Definition flashDfu (device binary : option string) (factory force : bool)
    (requestLeave : option bool) : M unit :=
  catch (plan ← flashDfu_resolve device binary factory force requestLeave;
         write_plan plan)
        (fun err => throw (JS.VError (Some (ensureError env err)) "Error writing firmware")).

Definition flashYModem (binary port : option string) (yes : bool) : M unit :=
  emit (Call_flashYModem binary port yes);;
  settle_unit (serial_flashDevice env binary port yes).

Definition flashCloud (device : option string) (files : list string)
    (target : option string) (yes : bool) : M unit :=
  emit (Call_flashCloud device files target yes);;
  settle_unit (cloud_flashDevice env device files target yes).

(** The device-name lookup of the USB branch: the new value of [device]. *)
Definition flash_lookup (device : option string) : M (option string) :=
  match device with
  | Some name =>
      if JS.truthy device && negb (isDeviceId env name) then
        emit (Call_getDevice name);;
        deviceInfo ← catch (settle (getDevice env name))
                           (fun err => throw (JS.VError (Some (ensureError env err))
                                                        "Device ID lookup failed"));
        match deviceInfo with
        | Some di =>
            if JS.truthy (deviceInfo_id di) then mret (deviceInfo_id di)
            else throw (JS.VError None "Device ID lookup failed")
        | None => throw (JS.VError None "Device ID lookup failed")
        end
      else mret device
  | None => mret device
  end.

(** What [flash] hands to [flashDfu] in USB mode as [binary] and, before
    the lookup, as [device]. *)
Definition flash_usb_binary (binary : option string) (files : list string) : option string :=
  match files with
  | first :: _ => Some first
  | [] => binary
  end.

Definition flash_usb_device (device : option string) (files : list string) : option string :=
  match files with
  | _ :: _ => device
  | [] => None
  end.

Definition flash (device binary : option string) (files : list string)
    (usb serial factory force : bool) (target port : option string) (yes : bool) : M unit :=
  if negb (JS.truthy device) && negb (JS.truthy binary) then
    (* if no device nor files are passed, show help *)
    throw (JS.Reason JS.Undefined)
  else
    (if usb then
       let binary := flash_usb_binary binary files in
       let device := flash_usb_device device files in
       device ← flash_lookup device;
       flashDfu device binary factory force None
     else if serial then flashYModem binary port yes
     else flashCloud device files target yes);;
    emit (Console_log (String "010"%char "Flash success!")).

(** *** Derived views used by the statements *)

(** The rest of [flashDfu_resolve] once [parseFile] has resolved with
    [info]: verification, dispatch on the module function, destination. *)
Definition flashDfu_parsed (targetDevice : TargetDevice) (binary : string)
    (factory force : bool) (requestLeave : option bool) (info : Info) : M FlashPlan :=
  '(finalBinary, destSegment, destAddress) ←
    flashDfu_verify binary force (Some (default_segment factory)) info;
  destAddress ← flashDfu_destination destSegment destAddress;
  mret {| plan_destSegment := destSegment;
          plan_destAddress := destAddress;
          plan_finalBinary := finalBinary;
          plan_leave := leave_flag requestLeave destSegment;
          plan_targetDevice := targetDevice |}.

(** The end of [flashDfu_resolve] when neither the segment nor the address
    was changed by a descriptor: the step-1 segment is looked up in the
    segment table and [image] is what the previous callback resolved with. *)
Definition flashDfu_default (targetDevice : TargetDevice) (factory : bool)
    (requestLeave : option bool) (image : option string) : M FlashPlan :=
  let destSegment := Some (default_segment factory) in
  destAddress ← flashDfu_destination destSegment None;
  mret {| plan_destSegment := destSegment;
          plan_destAddress := destAddress;
          plan_finalBinary := image;
          plan_leave := leave_flag requestLeave destSegment;
          plan_targetDevice := targetDevice |}.

(** The toolchain is there, [targetDevice] is the device found, [path] is
    a file and the parser reads the descriptor [info] from it. *)
Definition parses (device : option string) (targetDevice : TargetDevice) (w : World)
    (path : string) (info : Info) : Prop :=
  dfu_isDfuUtilInstalled env = None ∧
  dfu_findCompatibleDFU env device = inr targetDevice ∧
  (∃ bytes, fs w !! path = Some (File bytes)) ∧
  parser_parseFile env path = inr info.

(** The calls made before the descriptor is looked at. *)
Definition prelude (device : option string) (path : string) : list event :=
  [Call_isDfuUtilInstalled; Call_findCompatibleDFU device;
   Call_statSync (Some path); Call_parseFile path].

(** Neither the CRC guard nor the platform guard throws. *)
Definition passes_validation (specs : DeviceSpecs) (info : Info) (force : bool) : bool :=
  (ok (crc info) || force) &&
  ((platformID (prefixInfo info) =? productId specs) || force).

(** The image that the verification callback resolves with and the
    world it leaves, for a descriptor that reaches the end of it. *)
Definition delivered (binary : string) (info : Info) (w : World) : string :=
  if dropModuleInfoFlag info then temp_path env (fs w) else binary.

Definition stripped (binary : string) (bytes : list Byte.byte) (info : Info)
    (w : World) : World :=
  if dropModuleInfoFlag info then
    {| fs := <[temp_path env (fs w) := File (drop (HEADER_SIZE MI) bytes)]> (fs w);
       trace := trace w ++ [Call_createReadStream binary (HEADER_SIZE MI);
                            Call_createWriteStream (temp_path env (fs w))] |}
  else w.

End FlashCommand.


(** ** A test bench: a Photon in DFU mode *)

Module Bench.

(** The values [binary-version-reader] gives the constants. *)
Definition moduleInfo : ModuleInfoConstants :=
  {| MONO_FIRMWARE := 3; SYSTEM_PART := 4; USER_PART := 5; RADIO_STACK := 8;
     DROP_MODULE_INFO := 1; HEADER_SIZE := 24 |}.

(** The Photon entry of [deviceSpecs]. *)
Definition segments : gmap string SegmentSpecs :=
  list_to_map
    [("systemFirmwareOne", {| address := Some "0x08020000" |});
     ("systemFirmwareTwo", {| address := Some "0x08060000" |});
     ("userFirmware", {| address := Some "0x080A0000" |});
     ("factoryReset", {| address := Some "0x080E0000" |})].

Definition photon : DeviceSpecs :=
  {| productId := 6; systemFirmwareOne := segments !! "systemFirmwareOne" |}.

(** A segment lookup that answers with either an error or the specs. *)
Definition validateSegmentSpecs (segmentName : option string) : ValidatedSegment :=
  match segmentName with
  | None => {| error := Some "segmentName required. Don't know where to read/write.";
               specs := None |}
  | Some name =>
      match segments !! name with
      | Some params => {| error := None; specs := Some params |}
      | None => {| error := Some ("segment " +:+ name
                                  +:+ " has no specs. Not aware of this segment.");
                   specs := None |}
      end
  end.

(** A parser stub: the descriptor of each file is given by a table. *)
Definition parseFile (table : list (string * Info)) (path : string) : JS.error + Info :=
  match list_find (fun entry => String.eqb (fst entry) path) table with
  | Some (_, (_, info)) => inr info
  | None => inl (JS.Error "not a module")
  end.

Definition knownApps (name : option string) : option string :=
  match name with
  | Some "tinker" => Some "/particle/binaries/photon_tinker.bin"
  | _ => None
  end.

Definition env (table : list (string * Info)) : Env :=
  {| ModuleInfo := moduleInfo;
     dfu_isDfuUtilInstalled := None;
     dfu_findCompatibleDFU := fun _ => inr "2b04:d006";
     dfu_checkKnownApp := knownApps;
     parser_parseFile := parseFile table;
     deviceSpecs_dfuId := Some photon;
     dfu_validateSegmentSpecs := validateSegmentSpecs;
     dfu_writeDfu := fun _ _ _ _ _ => None;
     temp_path := fun _ => "/tmp/s-1.bin";
     isDeviceId := fun device => (String.length device =? 24)%nat;
     getDevice := fun name =>
       if String.eqb name "my-photon"
       then inr (Some {| deviceInfo_id := Some "0123456789abcdef01234567" |})
       else inl (JS.Error "Device not found");
     ensureError := fun err => err;
     serial_flashDevice := fun _ _ _ => None;
     cloud_flashDevice := fun _ _ _ _ => None |}.

Definition descriptor (platform function index flags : Z) (start : JS.value)
    (crcOk : bool) (suffix : Z) : Info :=
  {| prefixInfo := {| platformID := platform; moduleFunction := function;
                      moduleIndex := index; moduleFlags := flags;
                      moduleStartAddy := start |};
     suffixInfo := {| suffixSize := suffix |};
     crc := {| ok := crcOk |} |}.

(** Some descriptors: system parts, user parts, and twins of them with an
    unverifiable suffix or a bad CRC. *)
Definition system_part_2 : Info := descriptor 6 4 2 0 (JS.Str "8060000") true 36.
Definition system_part_7 : Info := descriptor 6 4 7 0 (JS.Str "8060000") true 36.
Definition unverifiable_system_part_1 : Info :=
  descriptor 6 4 1 0 (JS.Str "8020000") true 65535.
Definition unverifiable_system_part_7 : Info :=
  descriptor 6 4 7 0 (JS.Str "8060000") true 65535.
Definition user_part : Info := descriptor 6 5 1 0 (JS.Str "80a0000") true 36.
Definition corrupt_user_part : Info := descriptor 6 5 1 0 (JS.Str "80a0000") false 36.
Definition headed_user_part : Info := descriptor 6 5 1 1 (JS.Str "80a0000") true 36.
Definition unverifiable_user_part : Info :=
  descriptor 6 5 1 0 (JS.Str "80a0000") true 65535.

Definition device : TargetDevice := "2b04:d006".

Definition image : list Byte.byte :=
  repeat Byte.x00 24 ++ [Byte.xde; Byte.xad; Byte.xbe; Byte.xef].

Definition world : World :=
  {| fs := {[ "fw.bin" := File image ]}; trace := [] |}.

End Bench.


(** ** Vocabulary of the statements *)

(** The module functions the dispatch distinguishes are different numbers. *)
Definition distinct_function_types (MI : ModuleInfoConstants) : Prop :=
  NoDup [MONO_FIRMWARE MI; SYSTEM_PART MI; USER_PART MI; RADIO_STACK MI].

(** The number a string of hexadecimal digits denotes. *)
Definition hex_digit (c : ascii) : option N :=
  let n := N_of_ascii c in
  if ((48 <=? n) && (n <=? 57))%N then Some (n - 48)%N
  else if ((97 <=? n) && (n <=? 102))%N then Some (n - 87)%N
  else if ((65 <=? n) && (n <=? 70))%N then Some (n - 55)%N
  else None.

Fixpoint hex_digits (s : string) (acc : N) : option N :=
  match s with
  | EmptyString => Some acc
  | String c rest =>
      match hex_digit c with
      | Some d => hex_digits rest (16 * acc + d)%N
      | None => None
      end
  end.

Definition hex_number (s : string) : option N :=
  match s with
  | EmptyString => None
  | _ => hex_digits s 0%N
  end.


(** The three failures that [--force] is documented to override, by their
    messages. *)
Definition CRCInvalid (e : JS.error) : Prop :=
  e = JS.Error "CRC is invalid, use --force to override".

Definition PlatformMismatch (e : JS.error) : Prop :=
  ∃ expected parsed : Z,
    e = JS.Error ("Incorrect platform id (expected " +:+ pretty expected
                  +:+ ", parsed " +:+ pretty parsed +:+ "), use --force to override").

Definition UnknownModuleFunction (e : JS.error) : Prop :=
  ∃ function : Z,
    e = JS.Error ("unknown module function " +:+ pretty function
                  +:+ ", use --force to override").

Definition suppressible_by_force (e : JS.error) : Prop :=
  CRCInvalid e ∨ PlatformMismatch e ∨ UnknownModuleFunction e.

(** The failure of the last callback to come up with an address. *)
Definition UnknownDestination (e : JS.error) : Prop :=
  e = JS.Error "Unknown destination" ∨ ∃ reason, e = JS.Error ("dfu.write: " +:+ reason).

(** A call of the write primitive is acceptable when its address is a
    non-empty string (neither [undefined] nor [""]). *)
Definition write_has_address (e : event) : Prop :=
  match e with
  | Call_writeDfu _ _ address _ _ => JS.truthy address = true
  | _ => True
  end.

(** Every call a computation logs satisfies [P]. *)
Definition logs_only {A} (P : event → Prop) (m : M A) : Prop :=
  ∀ w, ∃ events, trace (m w).2 = trace w ++ events ∧ Forall P events.

(** The line [flash] prints when the chosen flow has resolved. *)
Definition success_line : event := Console_log (String "010"%char "Flash success!").

(** The calls the resolution of a DFU flash can make: the toolchain check,
    the discovery, the file system, the known apps, the parser, the segment
    table and the warning about an unverifiable binary. *)
Definition resolution_event (e : event) : Prop :=
  match e with
  | Call_isDfuUtilInstalled | Call_findCompatibleDFU _ | Call_statSync _
  | Call_checkKnownApp _ | Call_parseFile _ | Call_createReadStream _ _
  | Call_createWriteStream _ | Call_validateSegmentSpecs _ => True
  | Console_log line => line = "warn: unable to verify binary info"
  | Call_writeDfu _ _ _ _ _ | Call_getDevice _ | Call_flashYModem _ _ _
  | Call_flashCloud _ _ _ _ => False
  end.

(** The calls of a whole DFU flash: those, and writes on interface 0. *)
Definition flashDfu_event (e : event) : Prop :=
  match e with
  | Call_writeDfu alt _ _ _ _ => alt = 0
  | _ => resolution_event e
  end.


(** The calls one of the three flows makes once the device is settled. *)
Definition flow_event (e : event) : Prop :=
  match e with
  | Call_getDevice _ => False
  | Console_log line => line = "warn: unable to verify binary info"
  | Call_writeDfu alt _ _ _ _ => alt = 0
  | _ => True
  end.

(** The directory lookup [flash] makes for the value [device] has after
    the files list was looked at. *)
Definition lookup_events (env : Env) (device : option string) : list event :=
  match device with
  | Some name =>
      if JS.truthy device && negb (isDeviceId env name) then [Call_getDevice name] else []
  | None => []
  end.

(** The end of a resolution that takes the address of segment [seg] from
    the segment table and writes [image]. *)
Definition flashDfu_by_table (env : Env) (targetDevice : TargetDevice)
    (requestLeave : option bool) (seg : string) (image : option string) : M FlashPlan :=
  destAddress ← flashDfu_destination env (Some seg) None;
  mret {| plan_destSegment := Some seg;
          plan_destAddress := destAddress;
          plan_finalBinary := image;
          plan_leave := leave_flag requestLeave (Some seg);
          plan_targetDevice := targetDevice |}.


(** * Properties *)

(** ** Running computations *)

Lemma log_log (a b : list event) (w : World) : log b (log a w) = log (a ++ b) w.
Proof. unfold log; simpl. by rewrite app_assoc. Qed.

Ltac run :=
  unfold mbind, M_bind, mret, M_ret, bind, ret, throw, catch, emit, read_fs,
    write_file, settle, settle_unit in *; simpl in *.

Section Facts.

Variable env : Env.

Lemma dropModuleInfo_file (binary : string) (bytes : list Byte.byte) (w : World) :
  fs w !! binary = Some (File bytes) →
  _dropModuleInfo env binary w =
    (Resolved (temp_path env (fs w)),
     {| fs := <[temp_path env (fs w) := File (drop (HEADER_SIZE (ModuleInfo env)) bytes)]> (fs w);
        trace := trace w ++ [Call_createReadStream binary (HEADER_SIZE (ModuleInfo env));
                             Call_createWriteStream (temp_path env (fs w))] |}).
Proof.
  intros Hfile. unfold _dropModuleInfo. run. rewrite Hfile. simpl.
  by rewrite <- app_assoc.
Qed.

Lemma flashDfu_resolve_parsed device targetDevice w path info factory force requestLeave :
  parses env device targetDevice w path info →
  flashDfu_resolve env device (Some path) factory force requestLeave w =
  flashDfu_parsed env targetDevice path factory force requestLeave info
    (log (prelude device path) w).
Proof.
  intros (Hdfu & Hfind & [bytes Hfile] & Hparse).
  unfold flashDfu_resolve, flashDfu_parsed, flashDfu_locate, flashDfu_inspect.
  run. rewrite Hdfu, Hfind. simpl. rewrite Hfile. simpl. rewrite Hparse. simpl.
  rewrite !log_log. simpl. done.
Qed.

(** A descriptor that gets past both guards and the dispatch reaches the
    end of the verification callback. *)
Lemma flashDfu_verify_checked binary bytes force destSegment info specs seg addr w :
  suffix_unknown info = false →
  deviceSpecs_dfuId env = Some specs →
  passes_validation specs info force = true →
  flashDfu_switch env info specs force destSegment = inr (seg, addr) →
  fs w !! binary = Some (File bytes) →
  flashDfu_verify env binary force destSegment info w =
    (Resolved (Some (delivered env binary info w), seg, addr),
     stripped env binary bytes info w).
Proof.
  intros Hsuffix Hspecs Hpass Hswitch Hfile.
  unfold flashDfu_verify, passes_validation, delivered, stripped in *.
  rewrite Hsuffix, Hspecs.
  apply andb_true_iff in Hpass as [Hcrc Hplatform].
  replace (negb (ok (crc info)) && negb force) with false
    by (destruct (ok (crc info)), force; done).
  replace (negb (platformID (prefixInfo info) =? productId specs) && negb force)
    with false by (destruct (_ =? _), force; done).
  run. rewrite Hswitch. simpl.
  destruct (dropModuleInfoFlag env info); [|done].
  by rewrite (dropModuleInfo_file binary bytes w Hfile).
Qed.

(** An address taken from the descriptor is used as it is. *)
Lemma flashDfu_destination_given destSegment destAddress w :
  JS.truthy destAddress = true →
  flashDfu_destination env destSegment destAddress w = (Resolved destAddress, w).
Proof.
  intros Haddr. unfold flashDfu_destination. run.
  rewrite Haddr. simpl. by rewrite Haddr.
Qed.

(** Without one, a truthy segment name is looked up. *)
Lemma flashDfu_destination_lookup destSegment destAddress w :
  JS.truthy destAddress = false →
  JS.truthy destSegment = true →
  flashDfu_destination env destSegment destAddress w =
    let segment := dfu_validateSegmentSpecs env destSegment in
    let w' := log [Call_validateSegmentSpecs destSegment] w in
    if JS.truthy (error segment) then
      (Rejected (JS.Error ("dfu.write: " +:+ default "" (error segment))), w')
    else match specs segment with
         | None => (Rejected (JS.TypeError "Cannot read property 'address' of undefined"), w')
         | Some sp =>
             if JS.truthy (address sp) then (Resolved (address sp), w')
             else (Rejected (JS.Error "Unknown destination"), w')
         end.
Proof.
  intros Haddr Hseg. unfold flashDfu_destination. run. rewrite Haddr, Hseg. simpl.
  destruct (JS.truthy (error _)); [done|].
  destruct (specs _) as [sp|]; [|done]. simpl.
  by destruct (JS.truthy (address sp)).
Qed.

Lemma stripped_trace binary bytes info w :
  ∃ events, trace (stripped env binary bytes info w) = trace w ++ events ∧
            ∀ seg, Call_validateSegmentSpecs seg ∉ events.
Proof.
  unfold stripped. destruct (dropModuleInfoFlag env info); simpl.
  - eexists. split; [done|]. intros seg Hin.
    repeat (apply elem_of_cons in Hin as [Hin|Hin]; [discriminate|]).
    by apply elem_of_nil in Hin.
  - exists []. split; [by rewrite app_nil_r|]. intros seg Hin.
    by apply elem_of_nil in Hin.
Qed.

End Facts.

(** ** Dispatch on the module function *)

Section Dispatch.

Variable env : Env.
Hypothesis Hdistinct : distinct_function_types (ModuleInfo env).

Lemma flashDfu_switch_system_part info specs force destSegment :
  moduleFunction (prefixInfo info) = SYSTEM_PART (ModuleInfo env) →
  flashDfu_switch env info specs force destSegment =
    inr (systemModuleIndexToString (moduleIndex (prefixInfo info)),
         Some (JS.concat "0x0" (moduleStartAddy (prefixInfo info)))).
Proof using Hdistinct.
  intros Hfun. unfold flashDfu_switch. rewrite Hfun.
  unfold distinct_function_types in Hdistinct.
  apply NoDup_cons in Hdistinct as [Hmono _].
  destruct (Z.eqb_spec (SYSTEM_PART (ModuleInfo env)) (MONO_FIRMWARE (ModuleInfo env)))
    as [Heq|_].
  - exfalso. apply Hmono. rewrite <- Heq. set_solver.
  - by rewrite Z.eqb_refl.
Qed.

Lemma flashDfu_switch_user_part info specs force destSegment :
  moduleFunction (prefixInfo info) = USER_PART (ModuleInfo env) →
  flashDfu_switch env info specs force destSegment = inr (destSegment, None).
Proof using Hdistinct.
  intros Hfun. unfold flashDfu_switch. rewrite Hfun.
  unfold distinct_function_types in Hdistinct.
  apply NoDup_cons in Hdistinct as [Hmono Hrest].
  apply NoDup_cons in Hrest as [Hsys _].
  destruct (Z.eqb_spec (USER_PART (ModuleInfo env)) (MONO_FIRMWARE (ModuleInfo env)))
    as [Heq|_]; [exfalso; apply Hmono; rewrite <- Heq; set_solver|].
  destruct (Z.eqb_spec (USER_PART (ModuleInfo env)) (SYSTEM_PART (ModuleInfo env)))
    as [Heq|_]; [exfalso; apply Hsys; rewrite <- Heq; set_solver|].
  by rewrite Z.eqb_refl.
Qed.

End Dispatch.

Lemma hex_number_leading_zero (digits : string) (n : N) :
  hex_number digits = Some n → hex_number ("0" +:+ digits) = Some n.
Proof. destruct digits as [|c rest]; [done|]. intros H. exact H. Qed.

(** ** System parts *)

(** C1, as amended: for a descriptor whose suffix size is not the unknown
    sentinel, with module function SYSTEM_PART and module index 1, 2 or 3,
    that passes the CRC and platform guards (or is forced), the resolved
    segment is systemFirmwareOne, systemFirmwareTwo or systemFirmwareThree
    and the resolved address is ["0x0"] followed by the descriptor's
    [moduleStartAddy]; when that is a string of hexadecimal digits the
    address is the 0x-numeral of the same number.  The segment table is not
    consulted. *)
Theorem system_part_destination env device targetDevice w path info specs
    factory force requestLeave :
  parses env device targetDevice w path info →
  suffix_unknown info = false →
  deviceSpecs_dfuId env = Some specs →
  passes_validation specs info force = true →
  distinct_function_types (ModuleInfo env) →
  moduleFunction (prefixInfo info) = SYSTEM_PART (ModuleInfo env) →
  1 ≤ moduleIndex (prefixInfo info) ≤ 3 →
  ∃ plan w' events,
    flashDfu_resolve env device (Some path) factory force requestLeave w
      = (Resolved plan, w') ∧
    (moduleIndex (prefixInfo info) = 1 ∧ plan_destSegment plan = Some "systemFirmwareOne" ∨
     moduleIndex (prefixInfo info) = 2 ∧ plan_destSegment plan = Some "systemFirmwareTwo" ∨
     moduleIndex (prefixInfo info) = 3 ∧ plan_destSegment plan = Some "systemFirmwareThree") ∧
    plan_destAddress plan
      = Some ("0x0" +:+ JS.ToString (moduleStartAddy (prefixInfo info))) ∧
    (∀ digits n,
        moduleStartAddy (prefixInfo info) = JS.Str digits →
        hex_number digits = Some n →
        ∃ numeral, plan_destAddress plan = Some ("0x" +:+ numeral) ∧
                   hex_number numeral = Some n) ∧
    trace w' = trace w ++ events ∧
    ∀ seg, Call_validateSegmentSpecs seg ∉ events.
Proof.
  intros Hparses Hsuffix Hspecs Hpass Hdistinct Hfun Hindex.
  pose proof Hparses as (_ & _ & [bytes Hfile] & _).
  destruct (stripped_trace env path bytes info (log (prelude device path) w))
    as (events & Htrace & Hevents).
  eexists _, _, (prelude device path ++ events).
  rewrite (flashDfu_resolve_parsed _ _ _ _ _ _ _ _ _ Hparses).
  unfold flashDfu_parsed. run.
  rewrite (flashDfu_verify_checked env path bytes force _ info specs _ _
             (log (prelude device path) w) Hsuffix Hspecs Hpass
             (flashDfu_switch_system_part env Hdistinct info specs force _ Hfun) Hfile).
  simpl. split; [done|]. simpl.
  split; [|repeat split].
  - assert (moduleIndex (prefixInfo info) = 1 ∨ moduleIndex (prefixInfo info) = 2 ∨
            moduleIndex (prefixInfo info) = 3) as [Hi|[Hi|Hi]] by lia;
      rewrite Hi; auto.
  - intros digits n -> Hn. exists ("0" +:+ digits). split; [done|].
    by apply hex_number_leading_zero.
  - rewrite Htrace. by rewrite <- app_assoc.
  - intros seg Hin.
    repeat (apply elem_of_cons in Hin as [Hin|Hin]; [discriminate|]).
    by eapply Hevents.
Qed.

Lemma system_part_destination_witness :
  ∃ plan w' events,
    flashDfu_resolve (Bench.env [("fw.bin", Bench.system_part_2)]) None (Some "fw.bin")
      false false None Bench.world = (Resolved plan, w') ∧
    (2 = 1 ∧ plan_destSegment plan = Some "systemFirmwareOne" ∨
     2 = 2 ∧ plan_destSegment plan = Some "systemFirmwareTwo" ∨
     2 = 3 ∧ plan_destSegment plan = Some "systemFirmwareThree") ∧
    plan_destAddress plan = Some "0x08060000" ∧
    (∀ digits n,
        JS.Str "8060000" = JS.Str digits →
        hex_number digits = Some n →
        ∃ numeral, plan_destAddress plan = Some ("0x" +:+ numeral) ∧
                   hex_number numeral = Some n) ∧
    trace w' = trace Bench.world ++ events ∧
    ∀ seg, Call_validateSegmentSpecs seg ∉ events.
Proof.
  apply (system_part_destination (Bench.env [("fw.bin", Bench.system_part_2)])
           None Bench.device Bench.world "fw.bin" Bench.system_part_2 Bench.photon
           false false None).
  - repeat split; try reflexivity. exists Bench.image. reflexivity.
  - reflexivity.
  - reflexivity.
  - reflexivity.
  - unfold distinct_function_types. simpl. compute_done.
  - reflexivity.
  - simpl. lia.
Defined.

(** C1 as stated fails for a descriptor with an unverifiable suffix: the
    dispatch on the module function is skipped together with the guards,
    so a forced system part 1 with a valid CRC and the right platform is
    sent to the default segment, at the address from the segment table. *)
Lemma system_part_unverifiable_counterexample :
  let info := Bench.unverifiable_system_part_1 in
  let env := Bench.env [("fw.bin", info)] in
  parses env None Bench.device Bench.world "fw.bin" info ∧
  moduleFunction (prefixInfo info) = SYSTEM_PART (ModuleInfo env) ∧
  moduleIndex (prefixInfo info) = 1 ∧
  passes_validation Bench.photon info true = true ∧
  ∃ plan w',
    flashDfu_resolve env None (Some "fw.bin") false true None Bench.world
      = (Resolved plan, w') ∧
    plan_destSegment plan = Some "userFirmware" ∧
    plan_destSegment plan ≠ Some "systemFirmwareOne" ∧
    plan_destAddress plan = Some "0x080A0000" ∧
    plan_destAddress plan
      ≠ Some ("0x0" +:+ JS.ToString (moduleStartAddy (prefixInfo info))) ∧
    Call_validateSegmentSpecs (Some "userFirmware") ∈ trace w'.
Proof.
  simpl. split; [|repeat split].
  - repeat split; try reflexivity. exists Bench.image. reflexivity.
  - eexists _, _. split; [vm_compute; reflexivity|]. simpl.
    repeat split; try discriminate. set_solver.
Qed.

Lemma systemModuleIndexToString_other (index : Z) :
  ¬ (1 ≤ index ≤ 3) → systemModuleIndexToString index = None.
Proof.
  intros Hout. unfold systemModuleIndexToString.
  destruct (Z.eqb_spec index 1); [lia|].
  destruct (Z.eqb_spec index 2); [lia|].
  destruct (Z.eqb_spec index 3); [lia|done].
Qed.

(** C10, as amended: for a descriptor whose suffix size is not the unknown
    sentinel, with module function SYSTEM_PART and a module index other
    than 1, 2 and 3, that passes the CRC and platform guards (or is
    forced), resolution does not fail: the address is still ["0x0"]
    followed by the descriptor's [moduleStartAddy], the segment name is
    undefined, the segment table is not consulted, and the leave flag is
    false unless the caller supplies one. *)
Theorem system_part_unknown_index env device targetDevice w path info specs
    factory force requestLeave :
  parses env device targetDevice w path info →
  suffix_unknown info = false →
  deviceSpecs_dfuId env = Some specs →
  passes_validation specs info force = true →
  distinct_function_types (ModuleInfo env) →
  moduleFunction (prefixInfo info) = SYSTEM_PART (ModuleInfo env) →
  ¬ (1 ≤ moduleIndex (prefixInfo info) ≤ 3) →
  ∃ plan w' events,
    flashDfu_resolve env device (Some path) factory force requestLeave w
      = (Resolved plan, w') ∧
    plan_destSegment plan = None ∧
    plan_destAddress plan
      = Some ("0x0" +:+ JS.ToString (moduleStartAddy (prefixInfo info))) ∧
    plan_leave plan = default false requestLeave ∧
    trace w' = trace w ++ events ∧
    ∀ seg, Call_validateSegmentSpecs seg ∉ events.
Proof.
  intros Hparses Hsuffix Hspecs Hpass Hdistinct Hfun Hindex.
  pose proof Hparses as (_ & _ & [bytes Hfile] & _).
  destruct (stripped_trace env path bytes info (log (prelude device path) w))
    as (events & Htrace & Hevents).
  eexists _, _, (prelude device path ++ events).
  rewrite (flashDfu_resolve_parsed _ _ _ _ _ _ _ _ _ Hparses).
  unfold flashDfu_parsed. run.
  rewrite (flashDfu_verify_checked env path bytes force _ info specs _ _
             (log (prelude device path) w) Hsuffix Hspecs Hpass
             (flashDfu_switch_system_part env Hdistinct info specs force _ Hfun) Hfile).
  rewrite (systemModuleIndexToString_other _ Hindex).
  simpl. split; [done|]. simpl. repeat split.
  - rewrite Htrace. by rewrite <- app_assoc.
  - intros seg Hin.
    repeat (apply elem_of_cons in Hin as [Hin|Hin]; [discriminate|]).
    by eapply Hevents.
Qed.

Lemma system_part_unknown_index_witness :
  ∃ plan w' events,
    flashDfu_resolve (Bench.env [("fw.bin", Bench.system_part_7)]) None (Some "fw.bin")
      false false None Bench.world = (Resolved plan, w') ∧
    plan_destSegment plan = None ∧
    plan_destAddress plan = Some "0x08060000" ∧
    plan_leave plan = false ∧
    trace w' = trace Bench.world ++ events ∧
    ∀ seg, Call_validateSegmentSpecs seg ∉ events.
Proof.
  apply (system_part_unknown_index (Bench.env [("fw.bin", Bench.system_part_7)])
           None Bench.device Bench.world "fw.bin" Bench.system_part_7 Bench.photon
           false false None).
  - repeat split; try reflexivity. exists Bench.image. reflexivity.
  - reflexivity.
  - reflexivity.
  - reflexivity.
  - unfold distinct_function_types. simpl. compute_done.
  - reflexivity.
  - simpl. lia.
Defined.

(** C10 as stated fails for a descriptor with an unverifiable suffix: a
    forced system part with index 7 is given the default segment, the
    segment table is consulted for its address, and the leave flag is
    true. *)
Lemma system_part_unknown_index_counterexample :
  let info := Bench.unverifiable_system_part_7 in
  let env := Bench.env [("fw.bin", info)] in
  parses env None Bench.device Bench.world "fw.bin" info ∧
  moduleFunction (prefixInfo info) = SYSTEM_PART (ModuleInfo env) ∧
  moduleIndex (prefixInfo info) = 7 ∧
  passes_validation Bench.photon info true = true ∧
  ∃ plan w',
    flashDfu_resolve env None (Some "fw.bin") false true None Bench.world
      = (Resolved plan, w') ∧
    plan_destSegment plan = Some "userFirmware" ∧
    plan_destAddress plan = Some "0x080A0000" ∧
    plan_destAddress plan
      ≠ Some ("0x0" +:+ JS.ToString (moduleStartAddy (prefixInfo info))) ∧
    plan_leave plan = true ∧
    Call_validateSegmentSpecs (Some "userFirmware") ∈ trace w'.
Proof.
  simpl. split; [|repeat split].
  - repeat split; try reflexivity. exists Bench.image. reflexivity.
  - eexists _, _. split; [vm_compute; reflexivity|]. simpl.
    repeat split; try discriminate. set_solver.
Qed.

(** ** What [force] changes *)

Section Force.

Variable env : Env.





End Force.

(** ** Invalid CRC *)


(** ** The default segment *)

Section Default.

Variable env : Env.

Lemma default_segment_truthy factory : JS.truthy (Some (default_segment factory)) = true.
Proof. by destruct factory. Qed.

Lemma flashDfu_default_run targetDevice factory requestLeave image w :
  flashDfu_default env targetDevice factory requestLeave image w =
    let destSegment := Some (default_segment factory) in
    let segment := dfu_validateSegmentSpecs env destSegment in
    let w' := log [Call_validateSegmentSpecs destSegment] w in
    if JS.truthy (error segment) then
      (Rejected (JS.Error ("dfu.write: " +:+ default "" (error segment))), w')
    else match specs segment with
         | None => (Rejected (JS.TypeError "Cannot read property 'address' of undefined"), w')
         | Some sp =>
             if JS.truthy (address sp) then
               (Resolved {| plan_destSegment := destSegment;
                            plan_destAddress := address sp;
                            plan_finalBinary := image;
                            plan_leave := leave_flag requestLeave destSegment;
                            plan_targetDevice := targetDevice |}, w')
             else (Rejected (JS.Error "Unknown destination"), w')
         end.
Proof.
  unfold flashDfu_default. run.
  rewrite (flashDfu_destination_lookup env _ None w eq_refl (default_segment_truthy factory)).
  simpl. destruct (JS.truthy (error _)); [done|].
  destruct (specs _) as [sp|]; [|done].
  by destruct (JS.truthy (address sp)).
Qed.

Lemma flashDfu_default_trace targetDevice factory requestLeave image w :
  trace (flashDfu_default env targetDevice factory requestLeave image w).2
    = trace w ++ [Call_validateSegmentSpecs (Some (default_segment factory))].
Proof.
  rewrite flashDfu_default_run. simpl.
  destruct (JS.truthy (error _)); [done|].
  destruct (specs _) as [sp|]; [|done].
  by destruct (JS.truthy (address sp)).
Qed.

Lemma flashDfu_default_errors targetDevice factory requestLeave image w e w' :
  flashDfu_default env targetDevice factory requestLeave image w = (Rejected e, w') →
  UnknownDestination e ∨ e = JS.TypeError "Cannot read property 'address' of undefined".
Proof.
  rewrite flashDfu_default_run. simpl.
  destruct (JS.truthy (error _)).
  { intros [= <- _]. left. right. by eexists. }
  destruct (specs _) as [sp|]; [|intros [= <- _]; by right].
  destruct (JS.truthy (address sp)); [done|].
  intros [= <- _]. left. by left.
Qed.

End Default.

(** ** Unverifiable suffix *)

(** C5: for a parsed image whose suffix size is the unknown sentinel
    65535, resolution logs the warning and goes on with the step-1 segment
    whatever the CRC flag, the platform id and [force] are: it is never
    rejected by the CRC or the platform guard (nor by the dispatch on the
    module function), and it resolves whenever the segment table has an
    address for the step-1 segment. *)
Theorem unverifiable_suffix_skips_checks env device targetDevice w path info
    factory force requestLeave :
  parses env device targetDevice w path info →
  suffix_unknown info = true →
  let warning := Console_log "warn: unable to verify binary info" in
  let lookup := dfu_validateSegmentSpecs env (Some (default_segment factory)) in
  flashDfu_resolve env device (Some path) factory force requestLeave w
    = flashDfu_default env targetDevice factory requestLeave None
        (log (prelude device path ++ [warning]) w) ∧
  (∃ r w', flashDfu_resolve env device (Some path) factory force requestLeave w = (r, w') ∧
           trace w' = trace w ++ prelude device path
                      ++ [warning; Call_validateSegmentSpecs (Some (default_segment factory))] ∧
           ∀ e, r = Rejected e → ¬ suppressible_by_force e) ∧
  (∀ sp, JS.truthy (error lookup) = false →
         specs lookup = Some sp →
         JS.truthy (address sp) = true →
         ∃ plan w', flashDfu_resolve env device (Some path) factory force requestLeave w
                      = (Resolved plan, w') ∧
                    plan_destSegment plan = Some (default_segment factory) ∧
                    plan_destAddress plan = address sp).
Proof.
  intros Hparses Hsuffix warning lookup.
  assert (flashDfu_resolve env device (Some path) factory force requestLeave w
          = flashDfu_default env targetDevice factory requestLeave None
              (log (prelude device path ++ [warning]) w)) as Hrun.
  { rewrite (flashDfu_resolve_parsed _ _ _ _ _ _ _ _ _ Hparses).
    unfold flashDfu_parsed, flashDfu_verify, flashDfu_default. rewrite Hsuffix.
    run. by rewrite log_log. }
  split; [done|]. rewrite Hrun. split.
  - destruct (flashDfu_default _ _ _ _ _ _) as [r w'] eqn:Hdefault.
    exists r, w'. split; [done|]. split.
    + pose proof (flashDfu_default_trace env targetDevice factory requestLeave None
                    (log (prelude device path ++ [warning]) w)) as Htrace.
      rewrite Hdefault in Htrace. simpl in Htrace. rewrite Htrace.
      by rewrite <- !app_assoc.
    + intros e -> Hsup.
      apply flashDfu_default_errors in Hdefault as [[->|[reason ->]]| ->];
        destruct Hsup as [Hc|[(a & b & Hp)|(f & Hu)]]; discriminate.
  - intros sp Herror Hspecs Haddress. rewrite flashDfu_default_run. simpl.
    fold lookup. rewrite Herror, Hspecs, Haddress. by eexists _, _.
Qed.

Lemma unverifiable_suffix_skips_checks_witness :
  let env := Bench.env [("fw.bin", Bench.unverifiable_user_part)] in
  let warning := Console_log "warn: unable to verify binary info" in
  let lookup := dfu_validateSegmentSpecs env (Some (default_segment true)) in
  flashDfu_resolve env None (Some "fw.bin") true false None Bench.world
    = flashDfu_default env Bench.device true None None
        (log (prelude None "fw.bin" ++ [warning]) Bench.world) ∧
  (∃ r w', flashDfu_resolve env None (Some "fw.bin") true false None Bench.world = (r, w') ∧
           trace w' = trace Bench.world ++ prelude None "fw.bin"
                      ++ [warning; Call_validateSegmentSpecs (Some (default_segment true))] ∧
           ∀ e, r = Rejected e → ¬ suppressible_by_force e) ∧
  (∀ sp, JS.truthy (error lookup) = false →
         specs lookup = Some sp →
         JS.truthy (address sp) = true →
         ∃ plan w', flashDfu_resolve env None (Some "fw.bin") true false None Bench.world
                      = (Resolved plan, w') ∧
                    plan_destSegment plan = Some (default_segment true) ∧
                    plan_destAddress plan = address sp).
Proof.
  apply (unverifiable_suffix_skips_checks
           (Bench.env [("fw.bin", Bench.unverifiable_user_part)])
           None Bench.device Bench.world "fw.bin" Bench.unverifiable_user_part
           true false None).
  - repeat split; try reflexivity. exists Bench.image. reflexivity.
  - reflexivity.
Defined.


(** ** Known apps *)

(** C7: when the path has no entry on disk but names a known app, the
    descriptor is neither parsed nor looked at: the only calls made are
    the toolchain check, the device discovery, [statSync], the known-app
    lookup and the segment-table lookup of the step-1 segment
    (factoryReset if [factory], else userFirmware), which alone decides the
    address. *)
Theorem known_app_uses_default_segment env device targetDevice w path app
    (factory force : bool) requestLeave :
  dfu_isDfuUtilInstalled env = None →
  dfu_findCompatibleDFU env device = inr targetDevice →
  fs w !! path = None →
  dfu_checkKnownApp env (Some path) = Some app →
  let before := [Call_isDfuUtilInstalled; Call_findCompatibleDFU device;
                 Call_statSync (Some path); Call_checkKnownApp (Some path)] in
  let destSegment := Some (if factory then "factoryReset" else "userFirmware") in
  let lookup := dfu_validateSegmentSpecs env destSegment in
  flashDfu_resolve env device (Some path) factory force requestLeave w
    = flashDfu_default env targetDevice factory requestLeave (Some app) (log before w) ∧
  (∃ r w', flashDfu_resolve env device (Some path) factory force requestLeave w = (r, w') ∧
           trace w' = trace w ++ before ++ [Call_validateSegmentSpecs destSegment] ∧
           (∀ name, Call_parseFile name ∉ before ++ [Call_validateSegmentSpecs destSegment]) ∧
           ∀ e, r = Rejected e →
                UnknownDestination e ∨
                e = JS.TypeError "Cannot read property 'address' of undefined") ∧
  (∀ sp, JS.truthy (error lookup) = false →
         specs lookup = Some sp →
         JS.truthy (address sp) = true →
         ∃ w', flashDfu_resolve env device (Some path) factory force requestLeave w
                 = (Resolved {| plan_destSegment := destSegment;
                                plan_destAddress := address sp;
                                plan_finalBinary := Some app;
                                plan_leave := leave_flag requestLeave destSegment;
                                plan_targetDevice := targetDevice |}, w')).
Proof.
  intros Hdfu Hfind Hmissing Hknown before destSegment lookup.
  assert (flashDfu_resolve env device (Some path) factory force requestLeave w
          = flashDfu_default env targetDevice factory requestLeave (Some app)
              (log before w)) as Hrun.
  { unfold flashDfu_resolve, flashDfu_locate, flashDfu_inspect, flashDfu_default.
    run. rewrite Hdfu, Hfind. simpl. rewrite Hmissing. simpl. rewrite Hknown. simpl.
    by rewrite !log_log. }
  split; [done|]. rewrite Hrun. split.
  - destruct (flashDfu_default _ _ _ _ _ _) as [r w'] eqn:Hdefault.
    exists r, w'. split; [done|]. split; [|split].
    + pose proof (flashDfu_default_trace env targetDevice factory requestLeave (Some app)
                    (log before w)) as Htrace.
      rewrite Hdefault in Htrace. simpl in Htrace. rewrite Htrace.
      by rewrite <- !app_assoc.
    + intros name Hin.
      repeat (apply elem_of_cons in Hin as [Hin|Hin]; [discriminate|]).
      by apply elem_of_nil in Hin.
    + intros e ->. by eapply flashDfu_default_errors.
  - intros sp Herror Hspecs Haddress. rewrite flashDfu_default_run. simpl.
    fold destSegment lookup. unfold default_segment. fold destSegment. fold lookup.
    rewrite Herror, Hspecs, Haddress. by eexists.
Qed.

Lemma known_app_uses_default_segment_witness :
  let env := Bench.env [] in
  let app := "/particle/binaries/photon_tinker.bin" in
  let before := [Call_isDfuUtilInstalled; Call_findCompatibleDFU None;
                 Call_statSync (Some "tinker"); Call_checkKnownApp (Some "tinker")] in
  let destSegment := Some "factoryReset" in
  let lookup := dfu_validateSegmentSpecs env destSegment in
  flashDfu_resolve env None (Some "tinker") true false None Bench.world
    = flashDfu_default env Bench.device true None (Some app) (log before Bench.world) ∧
  (∃ r w', flashDfu_resolve env None (Some "tinker") true false None Bench.world = (r, w') ∧
           trace w' = trace Bench.world ++ before ++ [Call_validateSegmentSpecs destSegment] ∧
           (∀ name, Call_parseFile name ∉ before ++ [Call_validateSegmentSpecs destSegment]) ∧
           ∀ e, r = Rejected e →
                UnknownDestination e ∨
                e = JS.TypeError "Cannot read property 'address' of undefined") ∧
  (∀ sp, JS.truthy (error lookup) = false →
         specs lookup = Some sp →
         JS.truthy (address sp) = true →
         ∃ w', flashDfu_resolve env None (Some "tinker") true false None Bench.world
                 = (Resolved {| plan_destSegment := destSegment;
                                plan_destAddress := address sp;
                                plan_finalBinary := Some app;
                                plan_leave := leave_flag None destSegment;
                                plan_targetDevice := Bench.device |}, w')).
Proof.
  apply (known_app_uses_default_segment (Bench.env []) None Bench.device Bench.world
           "tinker" "/particle/binaries/photon_tinker.bin" true false None);
    reflexivity.
Defined.

(** ** From the plan to the write *)

Section Write.

Variable env : Env.

(** A resolved plan is written with exactly its own fields. *)
Lemma flashDfu_resolved device binary factory force requestLeave w plan w' :
  flashDfu_resolve env device binary factory force requestLeave w = (Resolved plan, w') →
  flashDfu env device binary factory force requestLeave w =
    (match dfu_writeDfu env 0 (plan_finalBinary plan) (plan_destAddress plan)
             (plan_leave plan) (plan_targetDevice plan) with
     | None => Resolved tt
     | Some err => Rejected (JS.VError (Some (ensureError env err)) "Error writing firmware")
     end,
     log [Call_writeDfu 0 (plan_finalBinary plan) (plan_destAddress plan)
                        (plan_leave plan) (plan_targetDevice plan)] w').
Proof.
  intros Hplan. unfold flashDfu, write_plan. run. rewrite Hplan. simpl.
  by destruct (dfu_writeDfu env _ _ _ _ _).
Qed.

(** A rejected resolution ends the attempt before anything is written. *)
Lemma flashDfu_rejected device binary factory force requestLeave w e w' :
  flashDfu_resolve env device binary factory force requestLeave w = (Rejected e, w') →
  flashDfu env device binary factory force requestLeave w =
    (Rejected (JS.VError (Some (ensureError env e)) "Error writing firmware"), w').
Proof. intros Hplan. unfold flashDfu. run. by rewrite Hplan. Qed.

(** The leave flag of a plan is computed from its segment. *)
Lemma flashDfu_resolve_leave device binary factory force requestLeave w plan w' :
  flashDfu_resolve env device binary factory force requestLeave w = (Resolved plan, w') →
  plan_leave plan = leave_flag requestLeave (plan_destSegment plan).
Proof.
  unfold flashDfu_resolve. run. intros Hplan.
  repeat case_match; simplify_eq; done.
Qed.

(** The address of a plan is a non-empty string. *)
Lemma flashDfu_destination_truthy destSegment destAddress w a w' :
  flashDfu_destination env destSegment destAddress w = (Resolved a, w') →
  JS.truthy a = true.
Proof.
  unfold flashDfu_destination. run. intros Hdest.
  repeat case_match; simplify_eq; by apply negb_false_iff.
Qed.

Lemma flashDfu_resolve_address device binary factory force requestLeave w plan w' :
  flashDfu_resolve env device binary factory force requestLeave w = (Resolved plan, w') →
  JS.truthy (plan_destAddress plan) = true.
Proof.
  unfold flashDfu_resolve. run. intros Hplan.
  repeat case_match; simplify_eq; simpl.
  by eapply flashDfu_destination_truthy.
Qed.

End Write.

(** ** Leaving the bootloader *)

(** A user part never changes the step-1 segment. *)
Lemma flashDfu_parsed_user_part env targetDevice path factory force requestLeave info
    w plan w' :
  distinct_function_types (ModuleInfo env) →
  moduleFunction (prefixInfo info) = USER_PART (ModuleInfo env) →
  flashDfu_parsed env targetDevice path factory force requestLeave info w
    = (Resolved plan, w') →
  plan_destSegment plan = Some (default_segment factory).
Proof.
  intros Hdistinct Hfun. unfold flashDfu_parsed, flashDfu_verify. run.
  destruct (suffix_unknown info); simpl.
  { intros Hplan. repeat case_match; simplify_eq; done. }
  destruct (negb (ok (crc info)) && negb force); [done|].
  destruct (deviceSpecs_dfuId env) as [specs|]; [|done].
  destruct (negb (platformID (prefixInfo info) =? productId specs) && negb force);
    [done|].
  rewrite (flashDfu_switch_user_part env Hdistinct info specs force _ Hfun). simpl.
  intros Hplan. repeat case_match; simplify_eq; done.
Qed.

(** C6: in every resolved plan the leave flag is the value the caller
    supplied, if any, and otherwise it is true exactly when the resolved
    segment is userFirmware; that flag is the one [dfu.writeDfu] is called
    with.  For a user part flashed with [factory] the resolved segment is
    factoryReset and the flag is false unless the caller supplied one. *)
Theorem leave_flag_follows_segment env device binary factory force requestLeave
    w plan w' :
  flashDfu_resolve env device binary factory force requestLeave w = (Resolved plan, w') →
  (∀ forced, requestLeave = Some forced → plan_leave plan = forced) ∧
  (requestLeave = None →
     (plan_leave plan = true ↔ plan_destSegment plan = Some "userFirmware")) ∧
  (∃ r, flashDfu env device binary factory force requestLeave w =
          (r, log [Call_writeDfu 0 (plan_finalBinary plan) (plan_destAddress plan)
                                 (plan_leave plan) (plan_targetDevice plan)] w')) ∧
  (∀ targetDevice path info,
     binary = Some path →
     parses env device targetDevice w path info →
     distinct_function_types (ModuleInfo env) →
     moduleFunction (prefixInfo info) = USER_PART (ModuleInfo env) →
     factory = true →
     plan_destSegment plan = Some "factoryReset" ∧
     (requestLeave = None → plan_leave plan = false)).
Proof.
  intros Hplan.
  pose proof (flashDfu_resolve_leave env _ _ _ _ _ _ _ _ Hplan) as Hleave.
  split; [|split; [|split]].
  - intros forced ->. by rewrite Hleave.
  - intros ->. rewrite Hleave. simpl.
    destruct (plan_destSegment plan) as [seg|]; simpl; [|done].
    rewrite String.eqb_eq. split; [by intros ->|by intros [= ->]].
  - rewrite (flashDfu_resolved env _ _ _ _ _ _ _ _ Hplan). by eexists.
  - intros targetDevice path info -> Hparses Hdistinct Hfun ->.
    rewrite (flashDfu_resolve_parsed _ _ _ _ _ _ _ _ _ Hparses) in Hplan.
    apply flashDfu_parsed_user_part in Hplan; [|done..].
    split; [done|]. intros ->. by rewrite Hleave, Hplan.
Qed.

Lemma leave_flag_follows_segment_witness :
  let env := Bench.env [("fw.bin", Bench.user_part)] in
  let plan := {| plan_destSegment := Some "factoryReset";
                 plan_destAddress := Some "0x080E0000";
                 plan_finalBinary := Some "fw.bin";
                 plan_leave := false;
                 plan_targetDevice := Bench.device |} in
  let w' := log (prelude None "fw.bin" ++ [Call_validateSegmentSpecs (Some "factoryReset")])
                Bench.world in
  (∀ forced, @None bool = Some forced → plan_leave plan = forced) ∧
  (@None bool = None →
     (plan_leave plan = true ↔ plan_destSegment plan = Some "userFirmware")) ∧
  (∃ r, flashDfu env None (Some "fw.bin") true false None Bench.world =
          (r, log [Call_writeDfu 0 (plan_finalBinary plan) (plan_destAddress plan)
                                 (plan_leave plan) (plan_targetDevice plan)] w')) ∧
  (∀ targetDevice path info,
     Some "fw.bin" = Some path →
     parses env None targetDevice Bench.world path info →
     distinct_function_types (ModuleInfo env) →
     moduleFunction (prefixInfo info) = USER_PART (ModuleInfo env) →
     true = true →
     plan_destSegment plan = Some "factoryReset" ∧
     (@None bool = None → plan_leave plan = false)).
Proof.
  apply (leave_flag_follows_segment (Bench.env [("fw.bin", Bench.user_part)])
           None (Some "fw.bin") true false None Bench.world).
  vm_compute. reflexivity.
Defined.

(** ** What a computation logs *)

Section Logs.

Context {P : event → Prop}.

Lemma logs_ret {A} (a : A) : logs_only P (ret a).
Proof. intros w. exists []. by rewrite app_nil_r. Qed.

Lemma logs_throw {A} (e : JS.error) : logs_only P (@throw A e).
Proof. intros w. exists []. by rewrite app_nil_r. Qed.

Lemma logs_emit (e : event) : P e → logs_only P (emit e).
Proof. intros He w. exists [e]. split; [done|]. by constructor. Qed.

Lemma logs_read_fs : logs_only P read_fs.
Proof. intros w. exists []. by rewrite app_nil_r. Qed.

Lemma logs_write_file path bytes : logs_only P (write_file path bytes).
Proof. intros w. exists []. by rewrite app_nil_r. Qed.

Lemma logs_settle {A} (r : JS.error + A) : logs_only P (settle r).
Proof. destruct r; [apply logs_throw|apply logs_ret]. Qed.

Lemma logs_settle_unit (r : option JS.error) : logs_only P (settle_unit r).
Proof. destruct r; [apply logs_throw|apply logs_ret]. Qed.

(** The continuation may rely on the value and the world it is run from. *)
Lemma logs_bind_from {A B} (m : M A) (k : A → M B) :
  logs_only P m →
  (∀ w a w', m w = (Resolved a, w') →
             ∃ events, trace (k a w').2 = trace w' ++ events ∧ Forall P events) →
  logs_only P (bind m k).
Proof.
  intros Hm Hk w. unfold bind.
  destruct (Hm w) as (events & Htrace & Hevents).
  destruct (m w) as [[a|e] w'] eqn:Hrun; simpl in *.
  - destruct (Hk w a w' Hrun) as (events' & Htrace' & Hevents').
    exists (events ++ events'). rewrite Htrace', Htrace, app_assoc.
    split; [done|]. by apply Forall_app.
  - by exists events.
Qed.

Lemma logs_bind {A B} (m : M A) (k : A → M B) :
  logs_only P m → (∀ a, logs_only P (k a)) → logs_only P (bind m k).
Proof. intros Hm Hk. apply logs_bind_from; [done|]. intros _ a w' _. apply Hk. Qed.

Lemma logs_catch {A} (m : M A) (handler : JS.error → M A) :
  logs_only P m → (∀ e, logs_only P (handler e)) → logs_only P (catch m handler).
Proof.
  intros Hm Hh w. unfold catch.
  destruct (Hm w) as (events & Htrace & Hevents).
  destruct (m w) as [[a|e] w'] eqn:Hrun; simpl in *.
  - by exists events.
  - destruct (Hh e w') as (events' & Htrace' & Hevents').
    exists (events ++ events'). rewrite Htrace', Htrace, app_assoc.
    split; [done|]. by apply Forall_app.
Qed.

End Logs.

Ltac logs_step :=
  first
    [ apply logs_ret | apply logs_throw | apply logs_read_fs | apply logs_write_file
    | apply logs_settle | apply logs_settle_unit
    | apply logs_emit; exact I
    | apply logs_bind; [|intros ?]
    | apply logs_catch; [|intros ?]
    | match goal with
      | |- logs_only _ (match ?x with _ => _ end) => destruct x
      | |- logs_only _ (let _ := _ in _) => cbv zeta
      end ].

Ltac logs :=
  unfold mbind, M_bind, mret, M_ret; repeat logs_step.

(** The same, with [known] tried first on every computation. *)
Ltac logs_using known :=
  unfold mbind, M_bind, mret, M_ret; repeat first [known | logs_step].

Section Writes.

Variable env : Env.

Lemma dropModuleInfo_logs binary : logs_only write_has_address (_dropModuleInfo env binary).
Proof. unfold _dropModuleInfo. logs. Qed.

Lemma flashDfu_locate_logs binary : logs_only write_has_address (flashDfu_locate env binary).
Proof. unfold flashDfu_locate. logs. Qed.

Lemma flashDfu_inspect_logs binary known factory force :
  logs_only write_has_address (flashDfu_inspect env binary known factory force).
Proof.
  unfold flashDfu_inspect, flashDfu_verify.
  logs_using ltac:(apply dropModuleInfo_logs).
Qed.

Lemma flashDfu_destination_logs destSegment destAddress :
  logs_only write_has_address (flashDfu_destination env destSegment destAddress).
Proof. unfold flashDfu_destination. logs. Qed.

Lemma flashDfu_resolve_logs device binary factory force requestLeave :
  logs_only write_has_address (flashDfu_resolve env device binary factory force requestLeave).
Proof.
  unfold flashDfu_resolve.
  logs_using ltac:(first [ apply flashDfu_locate_logs | apply flashDfu_inspect_logs
                         | apply flashDfu_destination_logs ]).
Qed.

Lemma flashDfu_logs device binary factory force requestLeave :
  logs_only write_has_address (flashDfu env device binary factory force requestLeave).
Proof.
  unfold flashDfu. unfold mbind, M_bind.
  apply logs_catch; [|intros e; apply logs_throw].
  apply logs_bind_from; [apply flashDfu_resolve_logs|].
  intros w plan w' Hplan.
  apply flashDfu_resolve_address in Hplan.
  unfold write_plan. unfold mbind, M_bind.
  apply logs_bind; [by apply logs_emit|intros _; apply logs_settle_unit].
Qed.

Lemma flash_logs device binary files usb serial factory force target port yes :
  logs_only write_has_address
    (flash env device binary files usb serial factory force target port yes).
Proof.
  unfold flash, flash_lookup, flashYModem, flashCloud.
  logs_using ltac:(apply flashDfu_logs).
Qed.

End Writes.

(** ** No write without an address *)

(** C3: in every flash attempt the write primitive is only ever called
    with an address that is a non-empty string; when the descriptor gave no
    address and the segment lookup cannot give one either (no segment name,
    an error, or specs without an address), the last callback rejects with
    the unknown-destination failure; a resolution that succeeds always
    carries an address; and a rejected resolution ends [flashDfu] with the
    wrapped error in the same world, so nothing is written to address zero
    or anywhere else. *)
Theorem write_only_with_address env device binary files
    (usb serial factory force : bool) target port (yes : bool) requestLeave w :
  (∃ events,
      trace (flash env device binary files usb serial factory force target port yes w).2
        = trace w ++ events ∧
      ∀ alt firmware address leave targetDevice,
        Call_writeDfu alt firmware address leave targetDevice ∈ events →
        ∃ a, address = Some a ∧ a ≠ "") ∧
  (∀ destSegment destAddress w0,
      JS.truthy destAddress = false →
      (JS.truthy destSegment = false ∨
       JS.truthy (error (dfu_validateSegmentSpecs env destSegment)) = true ∨
       ∃ sp, specs (dfu_validateSegmentSpecs env destSegment) = Some sp ∧
             JS.truthy (address sp) = false) →
      ∃ e w1, flashDfu_destination env destSegment destAddress w0 = (Rejected e, w1) ∧
              UnknownDestination e) ∧
  (∀ plan w1,
      flashDfu_resolve env device binary factory force requestLeave w = (Resolved plan, w1) →
      ∃ a, plan_destAddress plan = Some a ∧ a ≠ "") ∧
  (∀ e w1,
      flashDfu_resolve env device binary factory force requestLeave w = (Rejected e, w1) →
      flashDfu env device binary factory force requestLeave w
        = (Rejected (JS.VError (Some (ensureError env e)) "Error writing firmware"), w1)).
Proof.
  split; [|split; [|split]].
  - destruct (flash_logs env device binary files usb serial factory force target port yes w)
      as (events & Htrace & Hevents).
    exists events. split; [done|].
    intros alt firmware address leave targetDevice Hin.
    rewrite Forall_forall in Hevents. apply Hevents in Hin. simpl in Hin.
    destruct address as [a|]; [|done]. exists a. split; [done|].
    intros ->. done.
  - intros destSegment destAddress w0 Haddr Hlookup.
    destruct (JS.truthy destSegment) eqn:Hseg.
    + rewrite (flashDfu_destination_lookup env _ _ w0 Haddr Hseg). simpl.
      destruct Hlookup as [?|[Herr|(sp & Hspecs & Hnone)]]; [done|..].
      * rewrite Herr. eexists _, _. split; [done|]. right. by eexists.
      * destruct (JS.truthy (error _)).
        { eexists _, _. split; [done|]. right. by eexists. }
        rewrite Hspecs, Hnone. eexists _, _. split; [done|]. by left.
    + unfold flashDfu_destination. run. rewrite Haddr, Hseg. simpl. rewrite Haddr.
      eexists _, _. split; [done|]. by left.
  - intros plan w1 Hplan. apply flashDfu_resolve_address in Hplan.
    destruct (plan_destAddress plan) as [a|]; [|done].
    exists a. split; [done|]. by intros ->.
  - intros e w1. apply flashDfu_rejected.
Qed.

Lemma write_only_with_address_witness :
  let env := Bench.env [("fw.bin", Bench.user_part)] in
  (∃ events,
      trace (flash env None (Some "fw.bin") [] true false false false None None false
               Bench.world).2 = trace Bench.world ++ events ∧
      ∀ alt firmware address leave targetDevice,
        Call_writeDfu alt firmware address leave targetDevice ∈ events →
        ∃ a, address = Some a ∧ a ≠ "") ∧
  (∃ e w1, flashDfu_destination env (Some "radioStack") None Bench.world = (Rejected e, w1) ∧
           UnknownDestination e).
Proof.
  pose proof (write_only_with_address (Bench.env [("fw.bin", Bench.user_part)])
                None (Some "fw.bin") [] true false false false None None false None
                Bench.world) as (Hwrites & Hunknown & _).
  split; [exact Hwrites|].
  apply (Hunknown (Some "radioStack") None Bench.world); [reflexivity|].
  right. left. reflexivity.
Defined.

(** ** The image that is written *)

Section Image.

Variable env : Env.

Lemma flashDfu_destination_fs destSegment destAddress w :
  fs (flashDfu_destination env destSegment destAddress w).2 = fs w.
Proof.
  unfold flashDfu_destination. run.
  repeat (case_match; simplify_eq; simpl; try done).
Qed.

(** X17: for a descriptor that is verified, the image of the plan follows the
    drop-module-info flag: with the flag it is the temporary file, which
    holds the bytes of the binary after the header; without it, it is the
    binary, and no file is created.  When the temporary path is fresh the
    binary itself still holds its bytes. *)
Lemma image_follows_flag device targetDevice w path bytes info factory force
    requestLeave plan w' :
  parses env device targetDevice w path info →
  fs w !! path = Some (File bytes) →
  suffix_unknown info = false →
  flashDfu_resolve env device (Some path) factory force requestLeave w
    = (Resolved plan, w') →
  if dropModuleInfoFlag env info then
    let tmp := temp_path env (fs w) in
    plan_finalBinary plan = Some tmp ∧
    fs w' = <[tmp := File (drop (HEADER_SIZE (ModuleInfo env)) bytes)]> (fs w) ∧
    fs w' !! tmp = Some (File (drop (HEADER_SIZE (ModuleInfo env)) bytes)) ∧
    (fs w !! tmp = None → fs w' !! path = Some (File bytes))
  else
    plan_finalBinary plan = Some path ∧ fs w' = fs w.
Proof.
  intros Hparses Hfile Hsuffix.
  rewrite (flashDfu_resolve_parsed _ _ _ _ _ _ _ _ _ Hparses).
  unfold flashDfu_parsed, flashDfu_verify. rewrite Hsuffix. run.
  destruct (negb (ok (crc info)) && negb force); [done|].
  destruct (deviceSpecs_dfuId env) as [specs|]; [|done].
  destruct (negb (platformID (prefixInfo info) =? productId specs) && negb force);
    [done|].
  destruct (flashDfu_switch env info specs force _) as [e|[seg addr]]; [done|]. simpl.
  destruct (dropModuleInfoFlag env info).
  - rewrite (dropModuleInfo_file env path bytes (log (prelude device path) w) Hfile).
    simpl.
    match goal with
    | |- context [flashDfu_destination env seg addr ?w1] =>
        pose proof (flashDfu_destination_fs seg addr w1) as Hfs;
        destruct (flashDfu_destination env seg addr w1) as [[a|e] w2]
    end; [|done].
    intros [= <- <-]. simpl in *. rewrite Hfs.
    repeat split.
    + apply lookup_insert_eq.
    + intros Hfresh. rewrite lookup_insert_ne; [done|].
      intros Heq. rewrite Heq in Hfresh. congruence.
  - simpl.
    match goal with
    | |- context [flashDfu_destination env seg addr ?w1] =>
        pose proof (flashDfu_destination_fs seg addr w1) as Hfs;
        destruct (flashDfu_destination env seg addr w1) as [[a|e] w2]
    end; [|done].
    intros [= <- <-]. simpl in *. by rewrite Hfs.
Qed.

End Image.

(** C4 fails on the code: a user part with an unverifiable suffix and no
    drop-module-info flag reaches the write step, and the write primitive is
    called with [undefined] as its image instead of the binary, because the
    sentinel branch returns nothing to the next callback. *)
Theorem unverifiable_image_is_undefined :
  let info := Bench.unverifiable_user_part in
  let env := Bench.env [("fw.bin", info)] in
  parses env None Bench.device Bench.world "fw.bin" info ∧
  dropModuleInfoFlag env info = false ∧
  flashDfu env None (Some "fw.bin") false false None Bench.world
    = (Resolved tt,
       log (prelude None "fw.bin"
            ++ [Console_log "warn: unable to verify binary info";
                Call_validateSegmentSpecs (Some "userFirmware");
                Call_writeDfu 0 None (Some "0x080A0000") true Bench.device])
           Bench.world).
Proof.
  simpl. split; [|split].
  - repeat split; try reflexivity. exists Bench.image. reflexivity.
  - reflexivity.
  - vm_compute. reflexivity.
Qed.

(** ** Only three failures can be forced *)

Section Forced.

Variable env : Env.








End Forced.



(** ** The device argument in USB mode *)

Lemma truthy_nonempty (s : string) : s ≠ "" → JS.truthy (Some s) = true.
Proof. intros Hs. simpl. by destruct s. Qed.

(** C9: in USB mode with a non-empty files list and a device argument, the
    image handed to [flashDfu] is the first file.  A device argument that
    is a device id is handed on as it is, with no lookup; a name is never
    handed on: it is looked up with [getDevice], the id found replaces it,
    and when the lookup rejects (or finds no id) [flash] rejects with the
    "Device ID lookup failed" error, wrapping the cause, before anything
    else is called. *)
Theorem usb_device_argument env name binary first rest (serial factory force : bool)
    target port (yes : bool) w :
  name ≠ "" →
  let attempt :=
    flash env (Some name) binary (first :: rest) true serial factory force target port yes w in
  let success := Console_log (String "010"%char "Flash success!") in
  let usb device w0 :=
    (flashDfu env device (Some first) factory force None ≫= λ _, emit success) w0 in
  let failed cause :=
    (Rejected (JS.VError cause "Device ID lookup failed") : outcome (),
     log [Call_getDevice name] w) in
  (isDeviceId env name = true → attempt = usb (Some name) w) ∧
  (isDeviceId env name = false →
     match getDevice env name with
     | inl err => attempt = failed (Some (ensureError env err))
     | inr (Some {| deviceInfo_id := Some id |}) =>
         if String.eqb id "" then attempt = failed None
         else attempt = usb (Some id) (log [Call_getDevice name] w)
     | inr _ => attempt = failed None
     end).
Proof.
  intros Hname attempt success usb failed. subst attempt usb failed.
  unfold flash, flash_lookup, flash_usb_binary, flash_usb_device.
  rewrite (truthy_nonempty name Hname). simpl. split.
  - intros ->. simpl. by run.
  - intros ->. simpl. run.
    destruct (getDevice env name) as [err|[[[id|]]|]]; simpl; try done.
    destruct (String.eqb id ""); simpl; done.
Qed.

Lemma usb_device_argument_witness :
  let env := Bench.env [("fw.bin", Bench.user_part)] in
  let attempt :=
    flash env (Some "my-photon") None ["fw.bin"] true false false false None None false
      Bench.world in
  let success := Console_log (String "010"%char "Flash success!") in
  let usb device w0 :=
    (flashDfu env device (Some "fw.bin") false false None ≫= λ _, emit success) w0 in
  let failed cause :=
    (Rejected (JS.VError cause "Device ID lookup failed") : outcome (),
     log [Call_getDevice "my-photon"] Bench.world) in
  (isDeviceId env "my-photon" = true → attempt = usb (Some "my-photon") Bench.world) ∧
  (isDeviceId env "my-photon" = false →
     match getDevice env "my-photon" with
     | inl err => attempt = failed (Some (ensureError env err))
     | inr (Some {| deviceInfo_id := Some id |}) =>
         if String.eqb id "" then attempt = failed None
         else attempt = usb (Some id) (log [Call_getDevice "my-photon"] Bench.world)
     | inr _ => attempt = failed None
     end).
Proof.
  apply (usb_device_argument (Bench.env [("fw.bin", Bench.user_part)]) "my-photon" None
           "fw.bin" [] false false false None None false Bench.world).
  discriminate.
Defined.

(** ** Runs on the test bench *)

(** A user part with the drop-module-info flag: the image written is the
    temporary file, which holds the four bytes after the 24-byte header,
    and the binary is left as it was. *)
Example headed_user_part_run :
  let env := Bench.env [("fw.bin", Bench.headed_user_part)] in
  let '(r, w') := flashDfu env None (Some "fw.bin") false false None Bench.world in
  r = Resolved tt ∧
  trace w' = prelude None "fw.bin"
             ++ [Call_createReadStream "fw.bin" 24; Call_createWriteStream "/tmp/s-1.bin";
                 Call_validateSegmentSpecs (Some "userFirmware");
                 Call_writeDfu 0 (Some "/tmp/s-1.bin") (Some "0x080A0000") true Bench.device] ∧
  fs w' !! "/tmp/s-1.bin" = Some (File [Byte.xde; Byte.xad; Byte.xbe; Byte.xef]) ∧
  fs w' !! "fw.bin" = Some (File Bench.image).
Proof. vm_compute. done. Qed.

(** A name for the device, in USB mode: the id found by the lookup is the
    one the DFU device is searched with. *)
Example named_device_run :
  let env := Bench.env [("fw.bin", Bench.user_part)] in
  trace (flash env (Some "my-photon") None ["fw.bin"] true false false false None None
           false Bench.world).2
  = [Call_getDevice "my-photon"; Call_isDfuUtilInstalled;
     Call_findCompatibleDFU (Some "0123456789abcdef01234567");
     Call_statSync (Some "fw.bin"); Call_parseFile "fw.bin";
     Call_validateSegmentSpecs (Some "userFirmware");
     Call_writeDfu 0 (Some "fw.bin") (Some "0x080A0000") true Bench.device;
     Console_log (String "010"%char "Flash success!")].
Proof. vm_compute. done. Qed.

(** A corrupt user part: fatal without [--force], written with it. *)
Example corrupt_user_part_run :
  let env := Bench.env [("fw.bin", Bench.corrupt_user_part)] in
  (flashDfu env None (Some "fw.bin") false false None Bench.world).1
    = Rejected (JS.VError (Some (JS.Error "CRC is invalid, use --force to override"))
                          "Error writing firmware") ∧
  (flashDfu env None (Some "fw.bin") false true None Bench.world).1 = Resolved tt.
Proof. vm_compute. done. Qed.

(** * Further properties of the command *)

(** ** Which calls a DFU flash makes *)

Lemma logs_only_mono {A} (P Q : event → Prop) (m : M A) :
  (∀ e, P e → Q e) → logs_only P m → logs_only Q m.
Proof.
  intros HPQ Hm w. destruct (Hm w) as (events & Htrace & Hevents).
  exists events. split; [done|]. eapply Forall_impl; eauto.
Qed.

(** [logs] for any predicate: [side] proves it of the logged event. *)
Ltac logs_by side known :=
  unfold mbind, M_bind, mret, M_ret;
  repeat first
    [ known
    | apply logs_ret | apply logs_throw | apply logs_read_fs | apply logs_write_file
    | apply logs_settle | apply logs_settle_unit
    | apply logs_emit; side
    | apply logs_bind; [|intros ?]
    | apply logs_catch; [|intros ?]
    | match goal with
      | |- logs_only _ (match ?x with _ => _ end) => destruct x
      | |- logs_only _ (let _ := _ in _) => cbv zeta
      end ].

Section Calls.

Variable env : Env.

Lemma dropModuleInfo_events binary : logs_only resolution_event (_dropModuleInfo env binary).
Proof. unfold _dropModuleInfo. logs_by ltac:(exact I) fail. Qed.

Lemma flashDfu_resolve_events device binary factory force requestLeave :
  logs_only resolution_event
    (flashDfu_resolve env device binary factory force requestLeave).
Proof.
  unfold flashDfu_resolve, flashDfu_locate, flashDfu_inspect, flashDfu_verify,
    flashDfu_destination.
  logs_by ltac:(first [exact I | reflexivity]) ltac:(apply dropModuleInfo_events).
Qed.

Lemma flashDfu_events device binary factory force requestLeave :
  logs_only flashDfu_event (flashDfu env device binary factory force requestLeave).
Proof.
  unfold flashDfu, write_plan.
  logs_by ltac:(reflexivity)
          ltac:(apply (logs_only_mono resolution_event);
                [by intros []|apply flashDfu_resolve_events]).
Qed.

End Calls.

(** X1: a DFU flash calls the write primitive at most once, on interface
    0, with the fields of the resolved plan, and as its very last call;
    everything logged before it is a call of the resolution (toolchain,
    discovery, file system, known apps, parser, segment table, warning).
    When the resolution rejects, the write primitive is not called. *)
Theorem flashDfu_writes_once_and_last env device binary factory force requestLeave w :
  ∃ before,
    Forall resolution_event before ∧
    ((∃ e, (flashDfu_resolve env device binary factory force requestLeave w).1 = Rejected e ∧
           trace (flashDfu env device binary factory force requestLeave w).2
             = trace w ++ before) ∨
     (∃ plan, (flashDfu_resolve env device binary factory force requestLeave w).1
                = Resolved plan ∧
              trace (flashDfu env device binary factory force requestLeave w).2
                = trace w ++ before
                  ++ [Call_writeDfu 0 (plan_finalBinary plan) (plan_destAddress plan)
                                    (plan_leave plan) (plan_targetDevice plan)])).
Proof.
  destruct (flashDfu_resolve_events env device binary factory force requestLeave w)
    as (before & Htrace & Hbefore).
  exists before. split; [done|].
  destruct (flashDfu_resolve env device binary factory force requestLeave w)
    as [[plan|e] w'] eqn:Hrun; simpl in *.
  - right. exists plan. split; [done|].
    rewrite (flashDfu_resolved env _ _ _ _ _ _ _ _ Hrun). simpl.
    by rewrite Htrace, app_assoc.
  - left. exists e. split; [done|].
    by rewrite (flashDfu_rejected env _ _ _ _ _ _ _ _ Hrun).
Qed.

(** X2: [flashDfu] never rejects with a bare error: whatever fails, be it
    a collaborator, a guard or the write itself, the rejection is a
    [VError] with the message "Error writing firmware" around the cause
    as [ensureError] returns it. *)
Theorem flashDfu_wraps_every_failure env device binary factory force requestLeave w e :
  (flashDfu env device binary factory force requestLeave w).1 = Rejected e →
  ∃ cause, e = JS.VError (Some (ensureError env cause)) "Error writing firmware" ∧
           ((flashDfu_resolve env device binary factory force requestLeave w).1
              = Rejected cause ∨
            ∃ plan, (flashDfu_resolve env device binary factory force requestLeave w).1
                      = Resolved plan ∧
                    dfu_writeDfu env 0 (plan_finalBinary plan) (plan_destAddress plan)
                      (plan_leave plan) (plan_targetDevice plan) = Some cause).
Proof.
  destruct (flashDfu_resolve env device binary factory force requestLeave w)
    as [[plan|cause] w'] eqn:Hrun.
  - rewrite (flashDfu_resolved env _ _ _ _ _ _ _ _ Hrun). simpl.
    destruct (dfu_writeDfu env _ _ _ _ _) as [cause|] eqn:Hwrite; [|done].
    intros [= <-]. exists cause. split; [done|]. right. by exists plan.
  - rewrite (flashDfu_rejected env _ _ _ _ _ _ _ _ Hrun). simpl.
    intros [= <-]. exists cause. split; [done|]. by left.
Qed.

Lemma flashDfu_wraps_every_failure_witness :
  let env := Bench.env [("fw.bin", Bench.corrupt_user_part)] in
  ∃ cause,
    JS.VError (Some (JS.Error "CRC is invalid, use --force to override"))
              "Error writing firmware"
      = JS.VError (Some (ensureError env cause)) "Error writing firmware" ∧
    ((flashDfu_resolve env None (Some "fw.bin") false false None Bench.world).1
       = Rejected cause ∨
     ∃ plan, (flashDfu_resolve env None (Some "fw.bin") false false None Bench.world).1
               = Resolved plan ∧
             dfu_writeDfu env 0 (plan_finalBinary plan) (plan_destAddress plan)
               (plan_leave plan) (plan_targetDevice plan) = Some cause).
Proof.
  apply (flashDfu_wraps_every_failure (Bench.env [("fw.bin", Bench.corrupt_user_part)])
           None (Some "fw.bin") false false None Bench.world).
  vm_compute. reflexivity.
Defined.

(** ** The order of the first steps *)

Lemma flashDfu_resolve_first env device binary factory force requestLeave w :
  ∃ rest, trace (flashDfu_resolve env device binary factory force requestLeave w).2
            = trace w ++ Call_isDfuUtilInstalled :: rest.
Proof.
  unfold flashDfu_resolve, mbind, M_bind.
  match goal with
  | |- ∃ rest, trace (bind (emit ?e) ?k w).2 = _ =>
      assert (logs_only (λ _, True) (k tt)) as Hk
  end.
  { unfold flashDfu_locate, flashDfu_inspect, flashDfu_verify, flashDfu_destination.
    logs_by ltac:(exact I)
            ltac:(apply (logs_only_mono resolution_event);
                  [done|apply dropModuleInfo_events]). }
  destruct (Hk (log [Call_isDfuUtilInstalled] w)) as (events & Htrace & _).
  exists events. unfold bind at 1. unfold emit at 1. rewrite Htrace. simpl.
  by rewrite <- app_assoc.
Qed.

(** X3: the toolchain check is the first call of every DFU flash.  When the
    toolchain is missing nothing else is called, and when no compatible
    device is found the file system is not even looked at; both failures
    come back wrapped. *)
Theorem toolchain_then_discovery env device binary factory force requestLeave w :
  let wrap cause := JS.VError (Some (ensureError env cause)) "Error writing firmware" in
  (∃ rest, trace (flashDfu env device binary factory force requestLeave w).2
             = trace w ++ Call_isDfuUtilInstalled :: rest) ∧
  (∀ err, dfu_isDfuUtilInstalled env = Some err →
          flashDfu env device binary factory force requestLeave w
            = (Rejected (wrap err), log [Call_isDfuUtilInstalled] w)) ∧
  (∀ err, dfu_isDfuUtilInstalled env = None →
          dfu_findCompatibleDFU env device = inl err →
          flashDfu env device binary factory force requestLeave w
            = (Rejected (wrap err),
               log [Call_isDfuUtilInstalled; Call_findCompatibleDFU device] w)).
Proof.
  intros wrap. split; [|split].
  - destruct (flashDfu_resolve_first env device binary factory force requestLeave w)
      as (rest & Hfirst).
    destruct (flashDfu_resolve env device binary factory force requestLeave w)
      as [[plan|e] w'] eqn:Hrun; simpl in Hfirst.
    + rewrite (flashDfu_resolved env _ _ _ _ _ _ _ _ Hrun). simpl.
      rewrite Hfirst, <- app_assoc. by eexists.
    + rewrite (flashDfu_rejected env _ _ _ _ _ _ _ _ Hrun). simpl. by eexists.
  - intros err Herr. unfold flashDfu, flashDfu_resolve. run. by rewrite Herr.
  - intros err Hdfu Herr. unfold flashDfu, flashDfu_resolve. run.
    rewrite Hdfu. simpl. rewrite Herr. simpl. by rewrite log_log.
Qed.

Lemma toolchain_then_discovery_witness :
  let env := Bench.env [] in
  (∃ rest, trace (flashDfu env None (Some "tinker") false false None Bench.world).2
             = trace Bench.world ++ Call_isDfuUtilInstalled :: rest).
Proof.
  exact (proj1 (toolchain_then_discovery (Bench.env []) None (Some "tinker")
                  false false None Bench.world)).
Defined.

(** ** The literal path comes first *)

Section Literal.

Variable env : Env.

Lemma flashDfu_after_locate_no_known_app path factory force requestLeave targetDevice :
  logs_only (λ e, ∀ name, e ≠ Call_checkKnownApp name)
    ('(finalBinary, destSegment, destAddress) ←
       flashDfu_inspect env path false factory force;
     destAddress ← flashDfu_destination env destSegment destAddress;
     write_plan env {| plan_destSegment := destSegment;
                       plan_destAddress := destAddress;
                       plan_finalBinary := finalBinary;
                       plan_leave := leave_flag requestLeave destSegment;
                       plan_targetDevice := targetDevice |}).
Proof.
  unfold flashDfu_inspect, flashDfu_verify, flashDfu_destination, write_plan,
    _dropModuleInfo.
  logs_by ltac:(intros ?; discriminate) fail.
Qed.

End Literal.

(** X4: the path given is tried as a file before it is tried as the name
    of a known app.  A directory at that path is rejected at once (only the
    toolchain check, the discovery and [statSync] have been called), and
    for an existing file the known apps are never consulted, whatever they
    would answer. *)
Theorem literal_path_first env device targetDevice path factory force requestLeave w :
  dfu_isDfuUtilInstalled env = None →
  dfu_findCompatibleDFU env device = inr targetDevice →
  (fs w !! path = Some Directory →
     flashDfu env device (Some path) factory force requestLeave w
       = (Rejected (JS.VError
                      (Some (ensureError env
                               (JS.Error "You cannot flash a directory over USB")))
                      "Error writing firmware"),
          log [Call_isDfuUtilInstalled; Call_findCompatibleDFU device;
               Call_statSync (Some path)] w)) ∧
  (∀ bytes, fs w !! path = Some (File bytes) →
     ∃ events,
       trace (flashDfu env device (Some path) factory force requestLeave w).2
         = trace w ++ events ∧
       ∀ name, Call_checkKnownApp name ∉ events).
Proof.
  intros Hdfu Hfind. split.
  - intros Hdir. unfold flashDfu, flashDfu_resolve, flashDfu_locate. run.
    rewrite Hdfu, Hfind. simpl. rewrite Hdir. simpl. by rewrite !log_log.
  - intros bytes Hfile.
    pose (w1 := log [Call_isDfuUtilInstalled; Call_findCompatibleDFU device;
                     Call_statSync (Some path)] w).
    destruct (flashDfu_after_locate_no_known_app env path factory force requestLeave
                targetDevice w1) as (events & Htrace & Hevents).
    exists ([Call_isDfuUtilInstalled; Call_findCompatibleDFU device;
             Call_statSync (Some path)] ++ events).
    split.
    + rewrite app_assoc.
      change (trace w ++ [Call_isDfuUtilInstalled; Call_findCompatibleDFU device;
                          Call_statSync (Some path)]) with (trace w1).
      rewrite <- Htrace. clear Htrace Hevents.
      unfold flashDfu, flashDfu_resolve, flashDfu_locate, write_plan. run.
      rewrite Hdfu, Hfind. simpl. rewrite Hfile. simpl. rewrite !log_log. simpl.
      fold w1. unfold flashDfu_inspect.
      destruct ((emit (Call_parseFile path) ≫= _) w1) as [[[[fb seg] addr]|e] w2];
        simpl; [|done].
      destruct (flashDfu_destination env seg addr w2) as [[a|e] w3]; simpl; [|done].
      by destruct (dfu_writeDfu env _ _ _ _ _).
    + intros name Hin. apply elem_of_app in Hin as [Hin|Hin].
      * repeat (apply elem_of_cons in Hin as [Hin|Hin]; [discriminate|]).
        by apply elem_of_nil in Hin.
      * rewrite Forall_forall in Hevents. by apply (Hevents _ Hin name).
Qed.

Lemma literal_path_first_witness :
  let env := Bench.env [("tinker", Bench.user_part)] in
  let w := {| fs := {[ "tinker" := File Bench.image ]}; trace := [] |} in
  (fs w !! "tinker" = Some Directory →
     flashDfu env None (Some "tinker") false false None w
       = (Rejected (JS.VError
                      (Some (ensureError env
                               (JS.Error "You cannot flash a directory over USB")))
                      "Error writing firmware"),
          log [Call_isDfuUtilInstalled; Call_findCompatibleDFU None;
               Call_statSync (Some "tinker")] w)) ∧
  (∀ bytes, fs w !! "tinker" = Some (File bytes) →
     ∃ events,
       trace (flashDfu env None (Some "tinker") false false None w).2
         = trace w ++ events ∧
       ∀ name, Call_checkKnownApp name ∉ events).
Proof.
  apply (literal_path_first (Bench.env [("tinker", Bench.user_part)]) None Bench.device
           "tinker" false false None); reflexivity.
Defined.

(** ** The shape of a run of [flash] *)

Lemma log_nil (w : World) : log [] w = w.
Proof. destruct w. unfold log. simpl. by rewrite app_nil_r. Qed.

Section Shape.

Variable env : Env.

Lemma flashDfu_first device binary factory force requestLeave w :
  ∃ rest, trace (flashDfu env device binary factory force requestLeave w).2
            = trace w ++ Call_isDfuUtilInstalled :: rest.
Proof.
  destruct (flashDfu_resolve_first env device binary factory force requestLeave w)
    as (rest & Hfirst).
  destruct (flashDfu_resolve env device binary factory force requestLeave w)
    as [[plan|e] w'] eqn:Hrun; simpl in Hfirst.
  - rewrite (flashDfu_resolved env _ _ _ _ _ _ _ _ Hrun). simpl.
    rewrite Hfirst, <- app_assoc. by eexists.
  - rewrite (flashDfu_rejected env _ _ _ _ _ _ _ _ Hrun). simpl. by eexists.
Qed.

(** The lookup logs [lookup_events] and nothing else; without a lookup the
    device is handed on as it is. *)
Lemma flash_lookup_shape device w :
  ∃ r, flash_lookup env device w = (r, log (lookup_events env device) w) ∧
       (lookup_events env device = [] → r = Resolved device).
Proof.
  unfold flash_lookup, lookup_events. destruct device as [name|].
  - destruct (JS.truthy (Some name) && negb (isDeviceId env name)).
    + run. destruct (getDevice env name) as [err|[[id]|]]; simpl.
      * by eexists.
      * destruct (JS.truthy id); by eexists.
      * by eexists.
    + exists (Resolved (Some name)). by rewrite log_nil.
  - exists (Resolved None). by rewrite log_nil.
Qed.

(** A run of [flash] is the usage error, or the lookup followed by the
    calls of one flow (at least one call in all), followed by the success
    line exactly when the flow resolved. *)
Lemma flash_shape device binary files usb serial factory force target port yes w :
  let attempt := flash env device binary files usb serial factory force target port yes w in
  let lookup := if usb then lookup_events env (flash_usb_device device files) else [] in
  (JS.truthy device = false ∧ JS.truthy binary = false ∧
   attempt = (Rejected (JS.Reason JS.Undefined), w)) ∨
  ((JS.truthy device = true ∨ JS.truthy binary = true) ∧
   ∃ body, Forall flow_event body ∧
           (if usb then Forall flashDfu_event body
            else body = [if serial then Call_flashYModem binary port yes
                         else Call_flashCloud device files target yes]) ∧
           lookup ++ body ≠ [] ∧
           ((attempt.1 = Resolved tt ∧
             trace attempt.2 = trace w ++ lookup ++ body ++ [success_line]) ∨
            (∃ e, attempt.1 = Rejected e ∧
                  trace attempt.2 = trace w ++ lookup ++ body))).
Proof.
  intros attempt lookup. subst attempt lookup. unfold flash.
  destruct (negb (JS.truthy device) && negb (JS.truthy binary)) eqn:Husage.
  { left. apply andb_true_iff in Husage as [Hd Hb].
    apply negb_true_iff in Hd, Hb. done. }
  right. split.
  { apply andb_false_iff in Husage as [H|H]; apply negb_false_iff in H; auto. }
  clear Husage. destruct usb.
  - unfold mbind, M_bind, bind, emit.
    destruct (flash_lookup_shape (flash_usb_device device files) w)
      as (r & Hlookup & Hnone).
    rewrite Hlookup. clear Hlookup.
    destruct r as [device'|e].
    2: { exists []. split; [constructor|]. split; [constructor|].
         rewrite app_nil_r. split.
         - intros Hnil. by specialize (Hnone Hnil).
         - right. exists e. done. }
    set (w1 := log (lookup_events env (flash_usb_device device files)) w).
    destruct (flashDfu_events env device' (flash_usb_binary binary files) factory force
                None w1) as (body & Htrace & Hbody).
    destruct (flashDfu_first device' (flash_usb_binary binary files) factory force
                None w1) as (rest & Hfirst).
    exists body. split; [eapply Forall_impl; [done|by intros []]|].
    split; [done|]. split.
    { rewrite Hfirst in Htrace. apply app_inv_head in Htrace. subst body.
      by destruct (lookup_events env _). }
    destruct (flashDfu env device' _ factory force None w1) as [[[]|e] w2];
      simpl in *.
    + left. split; [done|]. by rewrite Htrace, <- !app_assoc.
    + right. exists e. split; [done|]. by rewrite Htrace, <- !app_assoc.
  - destruct serial; unfold flashYModem, flashCloud; run.
    + exists [Call_flashYModem binary port yes]. split; [by repeat constructor|].
      split; [done|]. split; [done|].
      destruct (serial_flashDevice env binary port yes) as [e|]; simpl.
      * right. by exists e.
      * left. split; [done|]. by rewrite <- app_assoc.
    + exists [Call_flashCloud device files target yes]. split; [by repeat constructor|].
      split; [done|]. split; [done|].
      destruct (cloud_flashDevice env device files target yes) as [e|]; simpl.
      * right. by exists e.
      * left. split; [done|]. by rewrite <- app_assoc.
Qed.

End Shape.

Lemma flow_event_not_success e : flow_event e → e ≠ success_line.
Proof. by intros He ->. Qed.

Lemma lookup_events_elem env device e :
  e ∈ lookup_events env device →
  ∃ name, e = Call_getDevice name ∧ device = Some name ∧ name ≠ "" ∧
          isDeviceId env name = false.
Proof.
  unfold lookup_events. destruct device as [name|]; [|by intros ?%elem_of_nil].
  destruct (JS.truthy (Some name)) eqn:Hname; simpl; [|by intros ?%elem_of_nil].
  destruct (isDeviceId env name) eqn:Hid; simpl; [by intros ?%elem_of_nil|].
  intros ->%list_elem_of_singleton. exists name.
  split; [done|]. split; [done|]. split; [|done].
  intros ->. done.
Qed.

(** X5: [flash] makes no call at all exactly when neither a device nor a
    binary is given (undefined or the empty string); it then rejects with
    [undefined] in an unchanged world, whatever the mode flags are. *)
Theorem usage_error_calls_nothing env device binary files (usb serial factory force : bool)
    target port (yes : bool) w :
  let attempt := flash env device binary files usb serial factory force target port yes w in
  (JS.truthy device = false ∧ JS.truthy binary = false →
     attempt = (Rejected (JS.Reason JS.Undefined), w)) ∧
  (trace attempt.2 = trace w → JS.truthy device = false ∧ JS.truthy binary = false).
Proof.
  intros attempt. subst attempt. split.
  - intros [Hd Hb]. unfold flash. by rewrite Hd, Hb.
  - intros Hsame.
    destruct (flash_shape env device binary files usb serial factory force target port yes w)
      as [(Hd & Hb & _)|(_ & body & _ & _ & Hsome & Hrun)]; [done|].
    exfalso. apply Hsome.
    destruct Hrun as [[_ Htrace]|(e & _ & Htrace)]; rewrite Htrace in Hsame.
    + rewrite <- (app_nil_r (trace w)) in Hsame at 2. apply app_inv_head in Hsame.
      rewrite app_assoc in Hsame. by apply app_eq_nil in Hsame as [_ ?].
    + rewrite <- (app_nil_r (trace w)) in Hsame at 2. by apply app_inv_head in Hsame.
Qed.

(** X6: the device directory is consulted only in USB mode, only when a
    files list came with a device argument that is non-empty and not a
    device id, and then exactly once, as the first call of the run. *)
Theorem directory_lookup_only_for_names env device binary files
    (usb serial factory force : bool) target port (yes : bool) w :
  ∃ events,
    trace (flash env device binary files usb serial factory force target port yes w).2
      = trace w ++ events ∧
    ∀ name,
      (Call_getDevice name ∈ events ↔
         usb = true ∧ files ≠ [] ∧ device = Some name ∧ name ≠ "" ∧
         isDeviceId env name = false) ∧
      (Call_getDevice name ∈ events →
         ∃ rest, events = Call_getDevice name :: rest ∧
                 ∀ other, Call_getDevice other ∉ rest).
Proof.
  destruct (flash_shape env device binary files usb serial factory force target port yes w)
    as [(Hd & Hb & Hrun)|(_ & body & Hbody & _ & _ & Hrun)].
  { exists []. rewrite Hrun. simpl. split; [by rewrite app_nil_r|].
    intros name. split; [split|]; try by intros ?%elem_of_nil.
    intros (_ & _ & -> & Hname & _). simpl in Hd. by destruct name. }
  set (lookup := if usb then lookup_events env (flash_usb_device device files) else [])
    in *.
  assert (∀ e name, e ∈ body ++ [success_line] → e ≠ Call_getDevice name) as Hlater.
  { intros e name [Hin| ->%list_elem_of_singleton]%elem_of_app; [|done].
    rewrite Forall_forall in Hbody. intros ->. by apply (Hbody _ Hin). }
  assert (∀ name, Call_getDevice name ∈ lookup ↔
                  usb = true ∧ files ≠ [] ∧ device = Some name ∧ name ≠ "" ∧
                  isDeviceId env name = false) as Hlookup.
  { intros name. subst lookup. split.
    - destruct usb; [|by intros ?%elem_of_nil].
      intros (n & [= <-] & Hdev & Hname & Hid)%lookup_events_elem.
      destruct files; simpl in Hdev; [done|]. done.
    - intros (-> & Hfiles & -> & Hname & Hid).
      destruct files; [done|]. simpl. rewrite Hid.
      destruct name; [done|]. simpl. by apply list_elem_of_singleton. }
  assert (∀ name, Call_getDevice name ∈ lookup → lookup = [Call_getDevice name]) as Honce.
  { intros name. subst lookup. destruct usb; [|by intros ?%elem_of_nil].
    unfold lookup_events. destruct (flash_usb_device device files) as [n|];
      [|by intros ?%elem_of_nil].
    destruct (_ && _); [|by intros ?%elem_of_nil].
    by intros ->%list_elem_of_singleton. }
  destruct Hrun as [[_ Htrace]|(e & _ & Htrace)].
  - exists (lookup ++ body ++ [success_line]). split; [done|].
    intros name. split; [split|].
    + intros [Hin|Hin]%elem_of_app; [by apply Hlookup|].
      by destruct (Hlater _ name Hin).
    + intros Hcond. apply elem_of_app. left. by apply Hlookup.
    + intros [Hin|Hin]%elem_of_app; [|by destruct (Hlater _ name Hin)].
      rewrite (Honce _ Hin). eexists. split; [done|].
      intros other Hother. by destruct (Hlater _ other Hother).
  - exists (lookup ++ body). split; [done|].
    assert (∀ e name, e ∈ body → e ≠ Call_getDevice name) as Hbody'.
    { intros e0 name Hin. apply Hlater. apply elem_of_app. by left. }
    intros name. split; [split|].
    + intros [Hin|Hin]%elem_of_app; [by apply Hlookup|].
      by destruct (Hbody' _ name Hin).
    + intros Hcond. apply elem_of_app. left. by apply Hlookup.
    + intros [Hin|Hin]%elem_of_app; [|by destruct (Hbody' _ name Hin)].
      rewrite (Honce _ Hin). eexists. split; [done|].
      intros other Hother. by destruct (Hbody' _ other Hother).
Qed.

(** X7: the success line is printed exactly when the chosen flow resolved,
    and then it is the last thing [flash] does; a run that rejects never
    prints it. *)
Theorem success_line_iff_resolved env device binary files (usb serial factory force : bool)
    target port (yes : bool) w :
  let attempt := flash env device binary files usb serial factory force target port yes w in
  ∃ events,
    trace attempt.2 = trace w ++ events ∧
    (attempt.1 = Resolved tt →
       ∃ before, events = before ++ [success_line] ∧ success_line ∉ before) ∧
    (∀ e, attempt.1 = Rejected e → success_line ∉ events).
Proof.
  intros attempt. subst attempt.
  destruct (flash_shape env device binary files usb serial factory force target port yes w)
    as [(Hd & Hb & Hrun)|(_ & body & Hbody & _ & _ & Hrun)].
  { exists []. rewrite Hrun. simpl. split; [by rewrite app_nil_r|].
    split; [done|]. by intros e _ ?%elem_of_nil. }
  set (lookup := if usb then lookup_events env (flash_usb_device device files) else [])
    in *.
  assert (success_line ∉ lookup ++ body) as Hnot.
  { intros [Hin|Hin]%elem_of_app.
    - subst lookup. destruct usb; [|by apply elem_of_nil in Hin].
      by apply lookup_events_elem in Hin as (n & ? & _).
    - rewrite Forall_forall in Hbody. by apply (flow_event_not_success _ (Hbody _ Hin)). }
  destruct Hrun as [[Hok Htrace]|(e & Hfail & Htrace)].
  - exists (lookup ++ body ++ [success_line]). split; [done|]. split.
    + intros _. exists (lookup ++ body). by rewrite <- app_assoc.
    + intros e He. congruence.
  - exists (lookup ++ body). split; [done|]. split.
    + intros Hok. congruence.
    + done.
Qed.

(** X8: the three flows exclude each other, USB before serial before
    cloud.  In USB mode neither the serial nor the cloud collaborator is
    called; otherwise the only call is the one to the serial collaborator
    with (binary, port, yes) if [serial] is set, and else the one to the
    cloud collaborator with (device, files, target, yes); no DFU call is
    made, and the collaborator's rejection is passed on as it is. *)
Theorem one_flow_per_run env device binary files (usb serial factory force : bool)
    target port (yes : bool) w :
  let attempt := flash env device binary files usb serial factory force target port yes w in
  JS.truthy device = true ∨ JS.truthy binary = true →
  (usb = true →
     ∃ events, trace attempt.2 = trace w ++ events ∧
               ∀ e, e ∈ events →
                    (∀ b p y, e ≠ Call_flashYModem b p y) ∧
                    (∀ d f t y, e ≠ Call_flashCloud d f t y)) ∧
  (usb = false → serial = true →
     attempt = match serial_flashDevice env binary port yes with
               | None => (Resolved tt, log [Call_flashYModem binary port yes; success_line] w)
               | Some e => (Rejected e, log [Call_flashYModem binary port yes] w)
               end) ∧
  (usb = false → serial = false →
     attempt = match cloud_flashDevice env device files target yes with
               | None => (Resolved tt,
                          log [Call_flashCloud device files target yes; success_line] w)
               | Some e => (Rejected e, log [Call_flashCloud device files target yes] w)
               end).
Proof.
  intros attempt Hgiven. subst attempt. split; [|split].
  - intros ->.
    destruct (flash_shape env device binary files true serial factory force target port yes w)
      as [(Hd & Hb & _)|(_ & body & _ & Hbody & _ & Hrun)];
      [destruct Hgiven; congruence|].
    simpl in Hbody. rewrite Forall_forall in Hbody.
    assert (∀ e, e ∈ lookup_events env (flash_usb_device device files) ++ body
                     ++ [success_line] →
                 (∀ b p y, e ≠ Call_flashYModem b p y) ∧
                 (∀ d f t y, e ≠ Call_flashCloud d f t y)) as Hall.
    { intros e [Hin|[Hin| ->%list_elem_of_singleton]%elem_of_app]%elem_of_app.
      - apply lookup_events_elem in Hin as (n & -> & _). done.
      - apply Hbody in Hin. split; intros; intros ->; done.
      - done. }
    destruct Hrun as [[_ Htrace]|(e & _ & Htrace)].
    + eexists. split; [done|]. done.
    + eexists. split; [done|]. intros e0 Hin. apply Hall.
      rewrite app_assoc. apply elem_of_app. by left.
  - intros -> ->. unfold flash, flashYModem.
    replace (negb (JS.truthy device) && negb (JS.truthy binary)) with false
      by (destruct Hgiven as [-> | ->]; by rewrite ?andb_false_r).
    run. destruct (serial_flashDevice env binary port yes); simpl; [done|].
    by rewrite log_log.
  - intros -> ->. unfold flash, flashCloud.
    replace (negb (JS.truthy device) && negb (JS.truthy binary)) with false
      by (destruct Hgiven as [-> | ->]; by rewrite ?andb_false_r).
    run. destruct (cloud_flashDevice env device files target yes); simpl; [done|].
    by rewrite log_log.
Qed.

Lemma one_flow_per_run_witness :
  let env := Bench.env [("fw.bin", Bench.user_part)] in
  flash env (Some "my-photon") (Some "fw.bin") [] false true false false None
    (Some "/dev/ttyACM0") true Bench.world
  = (Resolved tt,
     log [Call_flashYModem (Some "fw.bin") (Some "/dev/ttyACM0") true; success_line]
         Bench.world).
Proof.
  exact (proj1 (proj2 (one_flow_per_run (Bench.env [("fw.bin", Bench.user_part)])
                         (Some "my-photon") (Some "fw.bin") [] false true false false None
                         (Some "/dev/ttyACM0") true Bench.world
                         (or_introl eq_refl)))
               eq_refl eq_refl).
Defined.

(** ** Segments whose address comes from the table *)

Section Table.

Variable env : Env.

(** What the table lookup decides: the plan exists exactly when the table
    answers with specs that hold an address, which then is the address of
    the plan; the lookup is the only call made. *)
Lemma flashDfu_by_table_run targetDevice requestLeave seg image w :
  seg ≠ "" →
  let lookup := dfu_validateSegmentSpecs env (Some seg) in
  let w1 := log [Call_validateSegmentSpecs (Some seg)] w in
  flashDfu_by_table env targetDevice requestLeave seg image w =
    if JS.truthy (error lookup) then
      (Rejected (JS.Error ("dfu.write: " +:+ default "" (error lookup))), w1)
    else match specs lookup with
         | None => (Rejected (JS.TypeError "Cannot read property 'address' of undefined"), w1)
         | Some sp =>
             if JS.truthy (address sp) then
               (Resolved {| plan_destSegment := Some seg;
                            plan_destAddress := address sp;
                            plan_finalBinary := image;
                            plan_leave := leave_flag requestLeave (Some seg);
                            plan_targetDevice := targetDevice |}, w1)
             else (Rejected (JS.Error "Unknown destination"), w1)
         end.
Proof.
  intros Hseg lookup w1. unfold flashDfu_by_table. run.
  rewrite (flashDfu_destination_lookup env (Some seg) None w eq_refl
             (truthy_nonempty seg Hseg)).
  simpl. fold lookup. destruct (JS.truthy (error lookup)); [done|].
  destruct (specs lookup) as [sp|]; [|done].
  by destruct (JS.truthy (address sp)).
Qed.

Lemma flashDfu_by_table_plan targetDevice requestLeave seg image w plan w' :
  seg ≠ "" →
  flashDfu_by_table env targetDevice requestLeave seg image w = (Resolved plan, w') →
  plan_destSegment plan = Some seg ∧
  plan_finalBinary plan = image ∧
  plan_leave plan = leave_flag requestLeave (Some seg) ∧
  (∃ sp, specs (dfu_validateSegmentSpecs env (Some seg)) = Some sp ∧
         plan_destAddress plan = address sp) ∧
  w' = log [Call_validateSegmentSpecs (Some seg)] w.
Proof.
  intros Hseg. rewrite (flashDfu_by_table_run _ _ _ _ _ Hseg). simpl.
  destruct (JS.truthy (error _)); [done|].
  destruct (specs _) as [sp|]; [|done].
  destruct (JS.truthy (address sp)); [|done].
  intros [= <- <-]. simpl. repeat split. by exists sp.
Qed.

(** A verified descriptor whose dispatch leaves the address open is
    resolved through the table. *)
Lemma flashDfu_parsed_by_table targetDevice path bytes factory force requestLeave info
    specs seg w :
  suffix_unknown info = false →
  deviceSpecs_dfuId env = Some specs →
  passes_validation specs info force = true →
  flashDfu_switch env info specs force (Some (default_segment factory))
    = inr (Some seg, None) →
  fs w !! path = Some (File bytes) →
  flashDfu_parsed env targetDevice path factory force requestLeave info w
    = flashDfu_by_table env targetDevice requestLeave seg
        (Some (delivered env path info w)) (stripped env path bytes info w).
Proof.
  intros Hsuffix Hspecs Hpass Hswitch Hfile.
  unfold flashDfu_parsed, flashDfu_by_table. run.
  by rewrite (flashDfu_verify_checked env path bytes force _ info specs _ _ w
                Hsuffix Hspecs Hpass Hswitch Hfile).
Qed.

Lemma flashDfu_switch_mono_firmware info specs force destSegment :
  moduleFunction (prefixInfo info) = MONO_FIRMWARE (ModuleInfo env) →
  flashDfu_switch env info specs force destSegment
    = inr (match systemFirmwareOne specs with
           | Some _ => Some "systemFirmwareOne"
           | None => destSegment
           end, None).
Proof. intros Hfun. unfold flashDfu_switch. by rewrite Hfun, Z.eqb_refl. Qed.

Lemma flashDfu_switch_unknown_forced info specs destSegment :
  moduleFunction (prefixInfo info)
    ∉ [MONO_FIRMWARE (ModuleInfo env); SYSTEM_PART (ModuleInfo env);
       USER_PART (ModuleInfo env); RADIO_STACK (ModuleInfo env)] →
  flashDfu_switch env info specs true destSegment = inr (destSegment, None).
Proof.
  intros Hfun. unfold flashDfu_switch.
  assert (∀ c, c ∈ [MONO_FIRMWARE (ModuleInfo env); SYSTEM_PART (ModuleInfo env);
                    USER_PART (ModuleInfo env); RADIO_STACK (ModuleInfo env)] →
               (moduleFunction (prefixInfo info) =? c) = false) as Hne.
  { intros c Hc. apply Z.eqb_neq. by intros <-. }
  rewrite !Hne; [done|..]; set_solver.
Qed.

Lemma flashDfu_switch_radio_stack info specs force destSegment :
  distinct_function_types (ModuleInfo env) →
  moduleFunction (prefixInfo info) = RADIO_STACK (ModuleInfo env) →
  flashDfu_switch env info specs force destSegment
    = inr (Some "radioStack", Some (JS.concat "0x0" (moduleStartAddy (prefixInfo info)))).
Proof.
  intros Hdistinct Hfun. unfold flashDfu_switch. rewrite Hfun.
  unfold distinct_function_types in Hdistinct.
  apply NoDup_cons in Hdistinct as [Hmono Hrest].
  apply NoDup_cons in Hrest as [Hsys Hrest].
  apply NoDup_cons in Hrest as [Huser _].
  destruct (Z.eqb_spec (RADIO_STACK (ModuleInfo env)) (MONO_FIRMWARE (ModuleInfo env)))
    as [Heq|_]; [exfalso; apply Hmono; rewrite <- Heq; set_solver|].
  destruct (Z.eqb_spec (RADIO_STACK (ModuleInfo env)) (SYSTEM_PART (ModuleInfo env)))
    as [Heq|_]; [exfalso; apply Hsys; rewrite <- Heq; set_solver|].
  destruct (Z.eqb_spec (RADIO_STACK (ModuleInfo env)) (USER_PART (ModuleInfo env)))
    as [Heq|_]; [exfalso; apply Huser; rewrite <- Heq; set_solver|].
  by rewrite Z.eqb_refl.
Qed.

End Table.

(** A verified descriptor that the dispatch sends to segment [seg] without
    an address: the plan, if any, has that segment, the address the table
    holds for it and the leave flag of that segment; and there is a plan
    as soon as the table has an address. *)
Lemma resolve_via_table env device targetDevice w path info platform factory force
    requestLeave seg :
  parses env device targetDevice w path info →
  suffix_unknown info = false →
  deviceSpecs_dfuId env = Some platform →
  passes_validation platform info force = true →
  flashDfu_switch env info platform force (Some (default_segment factory))
    = inr (Some seg, None) →
  seg ≠ "" →
  let lookup := dfu_validateSegmentSpecs env (Some seg) in
  (∀ plan w',
      flashDfu_resolve env device (Some path) factory force requestLeave w
        = (Resolved plan, w') →
      plan_destSegment plan = Some seg ∧
      (∃ sp, specs lookup = Some sp ∧ plan_destAddress plan = address sp) ∧
      plan_leave plan = default (String.eqb seg "userFirmware") requestLeave) ∧
  (∀ sp, JS.truthy (error lookup) = false →
         specs lookup = Some sp →
         JS.truthy (address sp) = true →
         ∃ plan w',
           flashDfu_resolve env device (Some path) factory force requestLeave w
             = (Resolved plan, w') ∧
           plan_destAddress plan = address sp).
Proof.
  intros Hparses Hsuffix Hspecs Hpass Hswitch Hseg lookup.
  pose proof Hparses as (_ & _ & [bytes Hfile] & _).
  rewrite (flashDfu_resolve_parsed _ _ _ _ _ _ _ _ _ Hparses).
  rewrite (flashDfu_parsed_by_table env targetDevice path bytes factory force requestLeave
             info platform seg (log (prelude device path) w)
             Hsuffix Hspecs Hpass Hswitch Hfile).
  split.
  - intros plan w' Hplan.
    apply flashDfu_by_table_plan in Hplan as (Hs & _ & Hl & Ha & _); [|done].
    split; [done|]. split; [done|]. rewrite Hl. by destruct requestLeave.
  - intros sp Herror Hsp Haddress.
    rewrite (flashDfu_by_table_run env _ _ _ _ _ Hseg). simpl. fold lookup.
    rewrite Herror, Hsp, Haddress. by eexists _, _.
Qed.

(** X9: a verified user part (suffix not the sentinel, guards passed or
    forced) goes to the step-1 segment: factoryReset with [factory],
    userFirmware without.  Its address is the one the segment table holds
    for that segment, resolution succeeds as soon as the table has one,
    and unless the caller says otherwise the device leaves the bootloader
    exactly when [factory] is not set. *)
Theorem user_part_resolution env device targetDevice w path info platform (factory : bool)
    force requestLeave :
  parses env device targetDevice w path info →
  suffix_unknown info = false →
  deviceSpecs_dfuId env = Some platform →
  passes_validation platform info force = true →
  distinct_function_types (ModuleInfo env) →
  moduleFunction (prefixInfo info) = USER_PART (ModuleInfo env) →
  let seg := if factory then "factoryReset" else "userFirmware" in
  let lookup := dfu_validateSegmentSpecs env (Some seg) in
  (∀ plan w',
      flashDfu_resolve env device (Some path) factory force requestLeave w
        = (Resolved plan, w') →
      plan_destSegment plan = Some seg ∧
      (∃ sp, specs lookup = Some sp ∧ plan_destAddress plan = address sp) ∧
      plan_leave plan = default (negb factory) requestLeave) ∧
  (∀ sp, JS.truthy (error lookup) = false →
         specs lookup = Some sp →
         JS.truthy (address sp) = true →
         ∃ plan w',
           flashDfu_resolve env device (Some path) factory force requestLeave w
             = (Resolved plan, w') ∧
           plan_destAddress plan = address sp).
Proof.
  intros Hparses Hsuffix Hspecs Hpass Hdistinct Hfun seg lookup.
  destruct (resolve_via_table env device targetDevice w path info platform factory force
              requestLeave seg Hparses Hsuffix Hspecs Hpass) as [Hplan Hsome].
  - by rewrite (flashDfu_switch_user_part env Hdistinct info platform force _ Hfun).
  - by destruct factory.
  - split; [|done]. intros plan w' Hrun.
    destruct (Hplan plan w' Hrun) as (Hs & Ha & Hl).
    split; [done|]. split; [done|]. rewrite Hl. by destruct factory.
Qed.

Lemma user_part_resolution_witness :
  let env := Bench.env [("fw.bin", Bench.user_part)] in
  let lookup := dfu_validateSegmentSpecs env (Some "userFirmware") in
  (∀ plan w',
      flashDfu_resolve env None (Some "fw.bin") false false None Bench.world
        = (Resolved plan, w') →
      plan_destSegment plan = Some "userFirmware" ∧
      (∃ sp, specs lookup = Some sp ∧ plan_destAddress plan = address sp) ∧
      plan_leave plan = true) ∧
  (∀ sp, JS.truthy (error lookup) = false →
         specs lookup = Some sp →
         JS.truthy (address sp) = true →
         ∃ plan w',
           flashDfu_resolve env None (Some "fw.bin") false false None Bench.world
             = (Resolved plan, w') ∧
           plan_destAddress plan = address sp).
Proof.
  apply (user_part_resolution (Bench.env [("fw.bin", Bench.user_part)]) None Bench.device
           Bench.world "fw.bin" Bench.user_part Bench.photon false false None).
  - repeat split; try reflexivity. exists Bench.image. reflexivity.
  - reflexivity.
  - reflexivity.
  - reflexivity.
  - unfold distinct_function_types. simpl. compute_done.
  - reflexivity.
Defined.

(** X10: a verified monolithic firmware goes to systemFirmwareOne when the
    connected platform has such a segment and to the step-1 segment when
    it has not; either way the address is the one the segment table holds
    for the segment chosen. *)
Theorem mono_firmware_resolution env device targetDevice w path info platform (factory : bool)
    force requestLeave :
  parses env device targetDevice w path info →
  suffix_unknown info = false →
  deviceSpecs_dfuId env = Some platform →
  passes_validation platform info force = true →
  moduleFunction (prefixInfo info) = MONO_FIRMWARE (ModuleInfo env) →
  let seg := match systemFirmwareOne platform with
             | Some _ => "systemFirmwareOne"
             | None => if factory then "factoryReset" else "userFirmware"
             end in
  let lookup := dfu_validateSegmentSpecs env (Some seg) in
  (∀ plan w',
      flashDfu_resolve env device (Some path) factory force requestLeave w
        = (Resolved plan, w') →
      plan_destSegment plan = Some seg ∧
      (∃ sp, specs lookup = Some sp ∧ plan_destAddress plan = address sp) ∧
      plan_leave plan = default (String.eqb seg "userFirmware") requestLeave) ∧
  (∀ sp, JS.truthy (error lookup) = false →
         specs lookup = Some sp →
         JS.truthy (address sp) = true →
         ∃ plan w',
           flashDfu_resolve env device (Some path) factory force requestLeave w
             = (Resolved plan, w') ∧
           plan_destAddress plan = address sp).
Proof.
  intros Hparses Hsuffix Hspecs Hpass Hfun seg lookup.
  apply (resolve_via_table env device targetDevice w path info platform factory force
           requestLeave seg Hparses Hsuffix Hspecs Hpass).
  - rewrite (flashDfu_switch_mono_firmware env info platform force _ Hfun).
    subst seg. by destruct (systemFirmwareOne platform), factory.
  - subst seg. by destruct (systemFirmwareOne platform), factory.
Qed.

Lemma mono_firmware_resolution_witness :
  let info := Bench.descriptor 6 3 0 0 (JS.Str "8020000") true 36 in
  let env := Bench.env [("fw.bin", info)] in
  let lookup := dfu_validateSegmentSpecs env (Some "systemFirmwareOne") in
  (∀ plan w',
      flashDfu_resolve env None (Some "fw.bin") false false None Bench.world
        = (Resolved plan, w') →
      plan_destSegment plan = Some "systemFirmwareOne" ∧
      (∃ sp, specs lookup = Some sp ∧ plan_destAddress plan = address sp) ∧
      plan_leave plan = false) ∧
  (∀ sp, JS.truthy (error lookup) = false →
         specs lookup = Some sp →
         JS.truthy (address sp) = true →
         ∃ plan w',
           flashDfu_resolve env None (Some "fw.bin") false false None Bench.world
             = (Resolved plan, w') ∧
           plan_destAddress plan = address sp).
Proof.
  apply (mono_firmware_resolution
           (Bench.env [("fw.bin", Bench.descriptor 6 3 0 0 (JS.Str "8020000") true 36)])
           None Bench.device Bench.world "fw.bin"
           (Bench.descriptor 6 3 0 0 (JS.Str "8020000") true 36) Bench.photon
           false false None).
  - repeat split; try reflexivity. exists Bench.image. reflexivity.
  - reflexivity.
  - reflexivity.
  - reflexivity.
  - reflexivity.
Defined.

(** X11: with [force], a verified descriptor whose module function is none
    of the four known ones is resolved like a user part: it keeps the
    step-1 segment and takes its address from the segment table. *)
Theorem forced_unknown_function_resolution env device targetDevice w path info platform
    (factory : bool) requestLeave :
  parses env device targetDevice w path info →
  suffix_unknown info = false →
  deviceSpecs_dfuId env = Some platform →
  moduleFunction (prefixInfo info)
    ∉ [MONO_FIRMWARE (ModuleInfo env); SYSTEM_PART (ModuleInfo env);
       USER_PART (ModuleInfo env); RADIO_STACK (ModuleInfo env)] →
  let seg := if factory then "factoryReset" else "userFirmware" in
  let lookup := dfu_validateSegmentSpecs env (Some seg) in
  (∀ plan w',
      flashDfu_resolve env device (Some path) factory true requestLeave w
        = (Resolved plan, w') →
      plan_destSegment plan = Some seg ∧
      (∃ sp, specs lookup = Some sp ∧ plan_destAddress plan = address sp) ∧
      plan_leave plan = default (negb factory) requestLeave) ∧
  (∀ sp, JS.truthy (error lookup) = false →
         specs lookup = Some sp →
         JS.truthy (address sp) = true →
         ∃ plan w',
           flashDfu_resolve env device (Some path) factory true requestLeave w
             = (Resolved plan, w') ∧
           plan_destAddress plan = address sp).
Proof.
  intros Hparses Hsuffix Hspecs Hfun seg lookup.
  destruct (resolve_via_table env device targetDevice w path info platform factory true
              requestLeave seg Hparses Hsuffix Hspecs) as [Hplan Hsome].
  - unfold passes_validation. by rewrite !orb_true_r.
  - rewrite (flashDfu_switch_unknown_forced env info platform _ Hfun).
    by destruct factory.
  - by destruct factory.
  - split; [|done]. intros plan w' Hrun.
    destruct (Hplan plan w' Hrun) as (Hs & Ha & Hl).
    split; [done|]. split; [done|]. rewrite Hl. by destruct factory.
Qed.

Lemma forced_unknown_function_resolution_witness :
  let info := Bench.descriptor 6 7 0 0 (JS.Str "8020000") true 36 in
  let env := Bench.env [("fw.bin", info)] in
  let lookup := dfu_validateSegmentSpecs env (Some "factoryReset") in
  (∀ plan w',
      flashDfu_resolve env None (Some "fw.bin") true true None Bench.world
        = (Resolved plan, w') →
      plan_destSegment plan = Some "factoryReset" ∧
      (∃ sp, specs lookup = Some sp ∧ plan_destAddress plan = address sp) ∧
      plan_leave plan = false) ∧
  (∀ sp, JS.truthy (error lookup) = false →
         specs lookup = Some sp →
         JS.truthy (address sp) = true →
         ∃ plan w',
           flashDfu_resolve env None (Some "fw.bin") true true None Bench.world
             = (Resolved plan, w') ∧
           plan_destAddress plan = address sp).
Proof.
  apply (forced_unknown_function_resolution
           (Bench.env [("fw.bin", Bench.descriptor 6 7 0 0 (JS.Str "8020000") true 36)])
           None Bench.device Bench.world "fw.bin"
           (Bench.descriptor 6 7 0 0 (JS.Str "8020000") true 36) Bench.photon true None).
  - repeat split; try reflexivity. exists Bench.image. reflexivity.
  - reflexivity.
  - reflexivity.
  - simpl. intros Hin.
    repeat (apply elem_of_cons in Hin as [Hin|Hin]; [discriminate|]).
    by apply elem_of_nil in Hin.
Defined.

(** X12: a verified radio stack goes to the segment radioStack at the
    address ["0x0"] followed by the descriptor's [moduleStartAddy]; the
    segment table is not consulted, so the platform need not list that
    segment, and the device stays in the bootloader unless the caller says
    otherwise. *)
Theorem radio_stack_resolution env device targetDevice w path info platform
    (factory : bool) force requestLeave :
  parses env device targetDevice w path info →
  suffix_unknown info = false →
  deviceSpecs_dfuId env = Some platform →
  passes_validation platform info force = true →
  distinct_function_types (ModuleInfo env) →
  moduleFunction (prefixInfo info) = RADIO_STACK (ModuleInfo env) →
  ∃ plan w' events,
    flashDfu_resolve env device (Some path) factory force requestLeave w
      = (Resolved plan, w') ∧
    plan_destSegment plan = Some "radioStack" ∧
    plan_destAddress plan
      = Some ("0x0" +:+ JS.ToString (moduleStartAddy (prefixInfo info))) ∧
    plan_leave plan = default false requestLeave ∧
    trace w' = trace w ++ events ∧
    ∀ seg, Call_validateSegmentSpecs seg ∉ events.
Proof.
  intros Hparses Hsuffix Hspecs Hpass Hdistinct Hfun.
  pose proof Hparses as (_ & _ & [bytes Hfile] & _).
  destruct (stripped_trace env path bytes info (log (prelude device path) w))
    as (events & Htrace & Hevents).
  eexists _, _, (prelude device path ++ events).
  rewrite (flashDfu_resolve_parsed _ _ _ _ _ _ _ _ _ Hparses).
  unfold flashDfu_parsed. run.
  rewrite (flashDfu_verify_checked env path bytes force _ info platform _ _
             (log (prelude device path) w) Hsuffix Hspecs Hpass
             (flashDfu_switch_radio_stack env info platform force _ Hdistinct Hfun) Hfile).
  simpl. split; [done|]. simpl. repeat split.
  - rewrite Htrace. by rewrite <- app_assoc.
  - intros seg Hin.
    repeat (apply elem_of_cons in Hin as [Hin|Hin]; [discriminate|]).
    by eapply Hevents.
Qed.

Lemma radio_stack_resolution_witness :
  let info := Bench.descriptor 6 8 0 0 (JS.Str "8010000") true 36 in
  ∃ plan w' events,
    flashDfu_resolve (Bench.env [("fw.bin", info)]) None (Some "fw.bin") false false None
      Bench.world = (Resolved plan, w') ∧
    plan_destSegment plan = Some "radioStack" ∧
    plan_destAddress plan = Some "0x08010000" ∧
    plan_leave plan = false ∧
    trace w' = trace Bench.world ++ events ∧
    ∀ seg, Call_validateSegmentSpecs seg ∉ events.
Proof.
  apply (radio_stack_resolution
           (Bench.env [("fw.bin", Bench.descriptor 6 8 0 0 (JS.Str "8010000") true 36)])
           None Bench.device Bench.world "fw.bin"
           (Bench.descriptor 6 8 0 0 (JS.Str "8010000") true 36) Bench.photon
           false false None).
  - repeat split; try reflexivity. exists Bench.image. reflexivity.
  - reflexivity.
  - reflexivity.
  - reflexivity.
  - unfold distinct_function_types. simpl. compute_done.
  - reflexivity.
Defined.

(** ** The guards *)



(** ** Stripping the module header *)

(** X14: [_dropModuleInfo] on a file resolves with the temporary path,
    and the temporary file holds the bytes of the binary from offset
    [HEADER_SIZE] on: putting back the first [HEADER_SIZE] bytes gives the
    binary again, its length is the binary's less the header (nothing when
    the binary is no longer than the header), and no other path changes. *)
Theorem dropModuleInfo_strips_header env binary bytes w :
  fs w !! binary = Some (File bytes) →
  let header := HEADER_SIZE (ModuleInfo env) in
  let tmp := temp_path env (fs w) in
  ∃ rest w',
    _dropModuleInfo env binary w = (Resolved tmp, w') ∧
    fs w' !! tmp = Some (File rest) ∧
    take header bytes ++ rest = bytes ∧
    length rest = (length bytes - header)%nat ∧
    ((length bytes ≤ header)%nat → rest = []) ∧
    (∀ other, other ≠ tmp → fs w' !! other = fs w !! other).
Proof.
  intros Hfile header tmp.
  exists (drop header bytes). eexists.
  rewrite (dropModuleInfo_file env binary bytes w Hfile). split; [done|]. simpl.
  split; [apply lookup_insert_eq|].
  split; [apply take_drop|].
  split; [apply length_drop|].
  split; [apply drop_ge|].
  intros other Hother. by rewrite lookup_insert_ne.
Qed.

Lemma dropModuleInfo_strips_header_witness :
  let env := Bench.env [] in
  ∃ rest w',
    _dropModuleInfo env "fw.bin" Bench.world = (Resolved "/tmp/s-1.bin", w') ∧
    fs w' !! "/tmp/s-1.bin" = Some (File rest) ∧
    take 24 Bench.image ++ rest = Bench.image ∧
    length rest = (length Bench.image - 24)%nat ∧
    ((length Bench.image ≤ 24)%nat → rest = []) ∧
    (∀ other, other ≠ "/tmp/s-1.bin" → fs w' !! other = fs Bench.world !! other).
Proof.
  apply (dropModuleInfo_strips_header (Bench.env []) "fw.bin" Bench.image Bench.world).
  reflexivity.
Defined.

Lemma image_follows_flag_witness :
  let env := Bench.env [("fw.bin", Bench.headed_user_part)] in
  let run := flashDfu_resolve env None (Some "fw.bin") false false None Bench.world in
  let plan := {| plan_destSegment := Some "userFirmware";
                 plan_destAddress := Some "0x080A0000";
                 plan_finalBinary := Some "/tmp/s-1.bin";
                 plan_leave := true;
                 plan_targetDevice := Bench.device |} in
  plan_finalBinary plan = Some "/tmp/s-1.bin" ∧
  fs run.2 = <["/tmp/s-1.bin" := File (drop 24 Bench.image)]> (fs Bench.world) ∧
  fs run.2 !! "/tmp/s-1.bin" = Some (File (drop 24 Bench.image)) ∧
  (fs Bench.world !! "/tmp/s-1.bin" = None →
   fs run.2 !! "fw.bin" = Some (File Bench.image)).
Proof.
  apply (image_follows_flag (Bench.env [("fw.bin", Bench.headed_user_part)])
           None Bench.device Bench.world "fw.bin" Bench.image Bench.headed_user_part
           false false None
           {| plan_destSegment := Some "userFirmware";
              plan_destAddress := Some "0x080A0000";
              plan_finalBinary := Some "/tmp/s-1.bin";
              plan_leave := true;
              plan_targetDevice := Bench.device |}
           (flashDfu_resolve (Bench.env [("fw.bin", Bench.headed_user_part)])
              None (Some "fw.bin") false false None Bench.world).2).
  - repeat split; try reflexivity. exists Bench.image. reflexivity.
  - reflexivity.
  - reflexivity.
  - vm_compute. reflexivity.
Defined.

(** ** The drop-module-info flag *)

Lemma ToInt32_testbit (n k : Z) : 0 ≤ k < 32 → Z.testbit (JS.ToInt32 n) k = Z.testbit n k.
Proof.
  intros Hk. unfold JS.ToInt32.
  rewrite <- (Z.mod_pow2_bits_low _ 32 k) by lia.
  rewrite <- (Z.mod_pow2_bits_low n 32 k) by lia.
  f_equal. rewrite Zminus_mod_idemp_l. f_equal. lia.
Qed.

Lemma land_pow2 (x k : Z) :
  0 ≤ k → Z.land x (2 ^ k) = if Z.testbit x k then 2 ^ k else 0.
Proof.
  intros Hk. apply Z.bits_inj'. intros n Hn.
  rewrite Z.land_spec, Z.pow2_bits_eqb by lia.
  destruct (Z.eqb_spec k n) as [->|Hne].
  - rewrite andb_true_r. destruct (Z.testbit x n) eqn:Hbit.
    + rewrite Z.pow2_bits_eqb by lia. by rewrite Z.eqb_refl.
    + by rewrite Z.bits_0.
  - rewrite andb_false_r. destruct (Z.testbit x k).
    + rewrite Z.pow2_bits_eqb by lia. symmetry. by apply Z.eqb_neq.
    + by rewrite Z.bits_0.
Qed.

(** X15: when [DROP_MODULE_INFO] is the single bit [2^k] of a 32-bit
    integer, the header is dropped exactly when bit [k] of [moduleFlags]
    is set: the other bits of the flags, whatever they are, have no
    influence on it. *)
Theorem dropModuleInfoFlag_is_one_bit env info (k : Z) :
  0 ≤ k < 31 →
  DROP_MODULE_INFO (ModuleInfo env) = 2 ^ k →
  dropModuleInfoFlag env info = Z.testbit (moduleFlags (prefixInfo info)) k.
Proof.
  intros Hk Hdrop. unfold dropModuleInfoFlag, JS.bitand, JS.truthy_num.
  rewrite Hdrop.
  assert (JS.ToInt32 (2 ^ k) = 2 ^ k) as ->.
  { unfold JS.ToInt32.
    assert (0 < 2 ^ k < 2 ^ 31) by (split; [lia|apply Z.pow_lt_mono_r; lia]).
    rewrite Z.mod_small; lia. }
  rewrite land_pow2 by lia. rewrite ToInt32_testbit by lia.
  destruct (Z.testbit (moduleFlags (prefixInfo info)) k); [|done].
  apply negb_true_iff, Z.eqb_neq. lia.
Qed.

Lemma dropModuleInfoFlag_is_one_bit_witness :
  dropModuleInfoFlag (Bench.env []) Bench.headed_user_part
    = Z.testbit (moduleFlags (prefixInfo Bench.headed_user_part)) 0.
Proof.
  apply (dropModuleInfoFlag_is_one_bit (Bench.env []) Bench.headed_user_part 0).
  - lia.
  - reflexivity.
Defined.

(** ** The file system *)

Section Files.









Variable env : Env.





End Files.


Section Kept.

Variable env : Env.









End Kept.


(** ** USB mode without a files list *)

Lemma flashDfu_discovery env device binary factory force requestLeave :
  logs_only (λ e, (∀ d, e = Call_findCompatibleDFU d → d = device) ∧
                  (∀ name, e ≠ Call_getDevice name))
    (flashDfu env device binary factory force requestLeave).
Proof.
  unfold flashDfu, flashDfu_resolve, flashDfu_locate, flashDfu_inspect, flashDfu_verify,
    flashDfu_destination, write_plan, _dropModuleInfo.
  logs_by ltac:(split; [intros ? ?; by simplify_eq|intros ?; discriminate]) fail.
Qed.

(** X18: in USB mode without a files list the device argument is dropped,
    even when it is a device id: no directory lookup is made, the DFU
    device is searched without a device id, and the binary argument is
    flashed as it was given. *)
Theorem usb_without_files_drops_device env device binary (serial factory force : bool)
    target port (yes : bool) w :
  JS.truthy device = true ∨ JS.truthy binary = true →
  let attempt := flash env device binary [] true serial factory force target port yes w in
  attempt = (flashDfu env None binary factory force None ≫= λ _, emit success_line) w ∧
  ∃ events,
    trace attempt.2 = trace w ++ events ∧
    (∀ name, Call_getDevice name ∉ events) ∧
    (∀ d, Call_findCompatibleDFU d ∈ events → d = None).
Proof.
  intros Hgiven attempt.
  assert (attempt = (flashDfu env None binary factory force None
                       ≫= λ _, emit success_line) w) as Hrun.
  { subst attempt. unfold flash.
    replace (negb (JS.truthy device) && negb (JS.truthy binary)) with false
      by (destruct Hgiven as [-> | ->]; by rewrite ?andb_false_r).
    done. }
  split; [done|]. rewrite Hrun. clear Hrun attempt.
  unfold mbind, M_bind, bind, emit.
  destruct (flashDfu_discovery env None binary factory force None w)
    as (events & Htrace & Hevents).
  rewrite Forall_forall in Hevents.
  destruct (flashDfu env None binary factory force None w) as [[[]|e] w']; simpl in *.
  - exists (events ++ [success_line]). rewrite Htrace, app_assoc. split; [done|]. split.
    + intros name [Hin| Hin%list_elem_of_singleton]%elem_of_app; [|done].
      by apply (proj2 (Hevents _ Hin) name).
    + intros d [Hin| Hin%list_elem_of_singleton]%elem_of_app; [|done].
      by apply (proj1 (Hevents _ Hin) d).
  - exists events. split; [done|]. split.
    + intros name Hin. by apply (proj2 (Hevents _ Hin) name).
    + intros d Hin. by apply (proj1 (Hevents _ Hin) d).
Qed.

Lemma usb_without_files_drops_device_witness :
  let env := Bench.env [("fw.bin", Bench.user_part)] in
  let attempt :=
    flash env (Some "0123456789abcdef01234567") (Some "fw.bin") [] true false false false
      None None false Bench.world in
  attempt = (flashDfu env None (Some "fw.bin") false false None
               ≫= λ _, emit success_line) Bench.world ∧
  ∃ events,
    trace attempt.2 = trace Bench.world ++ events ∧
    (∀ name, Call_getDevice name ∉ events) ∧
    (∀ d, Call_findCompatibleDFU d ∈ events → d = None).
Proof.
  apply (usb_without_files_drops_device (Bench.env [("fw.bin", Bench.user_part)])
           (Some "0123456789abcdef01234567") (Some "fw.bin") false false false
           None None false Bench.world).
  left. reflexivity.
Defined.
